(** * Batched UDP packet I/O on Windows (quic-go, [sys_conn_oob] for Windows)

    A shallow embedding of
    - [src/sys_conn_helper_windows.go]: the control-message codec
      ([Cmsghdr], [cmsgLen], [cmsgSpace], [appendUDPSegmentSizeMsg],
      [ParseOneSocketControlMessage], [parseIPv4PktInfo]);
    - [src/unnamed/part_000]: the connection ([oobConn], [newConn]),
      [ReadPacket] and [WritePacket].

    Windows targets are little-endian; raw [unsafe.Pointer] loads and stores
    are written out as little-endian byte loads and stores.  A Go slice is
    modelled by the memory starting at its first element (the backing array
    and whatever lies after it) together with its length, so that a load
    through [unsafe.Pointer] past the length is visible: it reads whatever
    byte is there, and the read offset is recorded. *)

From Stdlib Require Import ZArith Bool String Strings.Byte.
From Stdlib Require Import List Lia.
Import ListNotations.

Open Scope Z_scope.

(** ** Bytes *)

Definition bz (x : byte) : Z := Z.of_N (Byte.to_N x).

(** The byte a store of the low 8 bits of [z] writes. *)
Definition zb (z : Z) : byte :=
  match Byte.of_N (Z.to_N (z mod 256)) with
  | Some b => b
  | None => x00
  end.

(** [list_set l i v] is [l[i] = v]; every store below is in range. *)
Fixpoint list_set {A} (l : list A) (i : nat) (v : A) : list A :=
  match l, i with
  | [], _ => []
  | _ :: t, O => v :: t
  | x :: t, S i' => x :: list_set t i' v
  end.

Definition store_u16 (l : list byte) (off : nat) (v : Z) : list byte :=
  list_set (list_set l off (zb v)) (S off) (zb (v / 256)).

Definition store_u32 (l : list byte) (off : nat) (v : Z) : list byte :=
  list_set (list_set (list_set (list_set l off (zb v))
    (off + 1) (zb (v / 256))) (off + 2) (zb (v / 65536))) (off + 3) (zb (v / 16777216)).

(** ** Slices and reads with their footprint *)

Record slice := mkSlice {
  s_mem : nat -> byte;  (* memory from the slice's first element onward *)
  s_len : nat           (* len(b) *)
}.

Definition nil_slice : slice := mkSlice (fun _ => x00) 0.

(** The slice [l] as returned by [append]: its bytes, then whatever lies
    after them in memory. *)
Definition slice_of (l : list byte) (beyond : nat -> byte) : slice :=
  mkSlice (fun k => if (k <? length l)%nat then nth k l x00 else beyond (k - length l)%nat)
          (length l).

(** Errors: [syscall.EINVAL] (the spec's [InvalidControlMessage]) and the
    opaque errors of the socket calls. *)
Inductive error := EINVAL | SysErr (code : Z).

Inductive res (A : Type) :=
| Ok (a : A)
| Err (e : error)
| Panic (msg : string).
Arguments Ok {A}. Arguments Err {A}. Arguments Panic {A}.

(** [b[lo:hi]]; the bounds are checked against [len(b)] (all uses below slice
    within the length). *)
Definition sub (b : slice) (lo hi : nat) : res slice :=
  if (lo <=? hi)%nat && (hi <=? s_len b)%nat
  then Ok (mkSlice (fun k => s_mem b (lo + k)%nat) (hi - lo))
  else Panic "slice bounds out of range".

(** [b[i:]] for [i < len(b)]. *)
Definition skip (b : slice) (i : nat) : slice :=
  mkSlice (fun k => s_mem b (i + k)%nat) (s_len b - i).

(** A computation that reads memory, with the offsets (relative to the
    slice start) it reads. *)
Definition Rd (A : Type) : Type := (list nat * A)%type.
Definition rret {A} (a : A) : Rd A := ([], a).
Definition rbind {A B} (m : Rd A) (f : A -> Rd B) : Rd B :=
  let '(t1, a) := m in let '(t2, r) := f a in (t1 ++ t2, r).
Notation "x <- m ;; k" := (rbind m (fun x => k))
  (at level 61, m at next level, right associativity).

Definition load_u8 (b : slice) (i : nat) : Rd Z := ([i], bz (s_mem b i)).

Definition load_u16 (b : slice) (off : nat) : Rd Z :=
  x0 <- load_u8 b off ;; x1 <- load_u8 b (off + 1) ;;
  rret (x0 + 256 * x1).

Definition load_u32 (b : slice) (off : nat) : Rd Z :=
  x0 <- load_u8 b off ;; x1 <- load_u8 b (off + 1) ;;
  x2 <- load_u8 b (off + 2) ;; x3 <- load_u8 b (off + 3) ;;
  rret (x0 + 256 * x1 + 65536 * x2 + 16777216 * x3).

(** int32 from its 32 bits. *)
Definition s32 (v : Z) : Z := if v <? 2 ^ 31 then v else v - 2 ^ 32.

(** ** The control-message header and its alignment *)

(** [type Cmsghdr struct { Len uint32; Level int32; Type int32 }] *)
Record Cmsghdr := mkCmsghdr { Len : Z; Level : Z; Type_ : Z }.

Definition load_Cmsghdr (b : slice) : Rd Cmsghdr :=
  l <- load_u32 b 0 ;; lv <- load_u32 b 4 ;; ty <- load_u32 b 8 ;;
  rret (mkCmsghdr l (s32 lv) (s32 ty)).

Definition uintptr_wrap (z : Z) : Z := z mod 2 ^ 64.

(** [reflect.TypeOf(Cmsghdr{}).Align()] and [.Size()]: three 4-byte fields. *)
Definition cmsgAlign : Z := 4.
Definition cmsgSize : Z := 12.
(** [reflect.TypeOf(uint32var).Align()] *)
Definition uint32Align : Z := 4.

Definition cmsgDataAlign (len : Z) : Z :=
  uintptr_wrap (Z.land (len + uint32Align - 1) (Z.lnot (uint32Align - 1))).

Definition cmsgHdrAlign (len : Z) : Z :=
  uintptr_wrap (Z.land (len + cmsgAlign - 1) (Z.lnot (cmsgAlign - 1))).

Definition cmsgLen (length : Z) : Z := uintptr_wrap (cmsgDataAlign cmsgSize + length).

Definition cmsgSpace (length : Z) : Z := cmsgDataAlign (cmsgSize + cmsgHdrAlign length).

(** [SetLen]: [cmsg.Len = uint32(length)]. *)
Definition SetLen (length : Z) : Z := length mod 2 ^ 32.

(** Constants of [golang.org/x/sys/windows] and [syscall] used here. *)
Definition IPPROTO_IP : Z := 0.
Definition IPPROTO_IPV6 : Z := 41.
Definition IPPROTO_UDP : Z := 17.
Definition IP_TOS : Z := 3.
Definition IP_PKTINFO : Z := 19.
Definition IPV6_PKTINFO : Z := 19.
Definition IPV6_RECVTCLASS : Z := 40.
Definition UDP_SEND_MSG_SIZE : Z := 2.

(** ** Building: [appendUDPSegmentSizeMsg] *)

Definition appendUDPSegmentSizeMsg (b : list byte) (size : Z) : list byte :=
  let startLen := length b in
  let dataLen := 2 in
  let b := b ++ repeat x00 (Z.to_nat (cmsgSpace dataLen)) in
  (* h points at b[startLen]: Len at +0, Level at +4, Type at +8 *)
  let b := store_u32 b (startLen + 4) (IPPROTO_UDP mod 2 ^ 32) in
  let b := store_u32 b (startLen + 8) (UDP_SEND_MSG_SIZE mod 2 ^ 32) in
  let b := store_u32 b startLen (SetLen (cmsgLen dataLen)) in
  let offset := (startLen + Z.to_nat (cmsgLen 0))%nat in
  store_u16 b offset size.

(** ** Parsing: [ParseOneSocketControlMessage] *)

Definition socketControlMessageHeaderAndData (b : slice) : Rd (res slice) :=
  if (s_len b =? 0)%nat then rret (Panic "index out of range [0] with length 0")
  else
    (* h points at b[0]; h.Len is loaded with no check of len(b) *)
    hlen <- load_u32 b 0 ;;
    if (hlen <? cmsgSize) || (Z.of_nat (s_len b) <? hlen)
    then rret (Err EINVAL)
    else rret (sub b (Z.to_nat (cmsgDataAlign cmsgSize)) (Z.to_nat hlen)).

Definition ParseOneSocketControlMessage (b : slice) : Rd (res (Cmsghdr * slice * slice)) :=
  r <- socketControlMessageHeaderAndData b ;;
  match r with
  | Err e => rret (Err e)
  | Panic m => rret (Panic m)
  | Ok dbuf =>
      hlen <- load_u32 b 0 ;;
      let i := cmsgDataAlign hlen in
      let remainder := if i <? Z.of_nat (s_len b) then skip b (Z.to_nat i) else nil_slice in
      h <- load_Cmsghdr b ;;
      rret (Ok (h, dbuf, remainder))
  end.

(** ** Packet-info payloads *)

(** [netip.Addr]: the zero value, a 4-byte or a 16-byte address. *)
Inductive netip_Addr :=
| AddrZero
| Addr4 (ip : list Z)
| Addr16 (ip : list Z).

Definition slice_bytes (s : slice) (lo n : nat) : list Z :=
  map (fun k => bz (s_mem s k)) (seq lo n).

(** [netip.AddrFrom16(a).Unmap()] *)
Definition AddrFrom16_Unmap (a : list Z) : netip_Addr :=
  if list_eq_dec Z.eq_dec (firstn 12 a) [0;0;0;0;0;0;0;0;0;0;255;255]
  then Addr4 (skipn 12 a) else Addr16 a.

(** [binary.LittleEndian.Uint32(b)]: bounds check on [b[3]], then the first four
    bytes. *)
Definition LittleEndian_Uint32 (b : slice) : res Z :=
  if (4 <=? s_len b)%nat then Ok (snd (load_u32 b 0))
  else Panic "index out of range [3]".

Definition parseIPv4PktInfo (body : slice) : res (netip_Addr * Z * bool) :=
  if negb (s_len body =? 8)%nat then Ok (AddrZero, 0, false)
  else
    match LittleEndian_Uint32 body with
    | Ok ifIndex => Ok (Addr4 (slice_bytes body 0 4), ifIndex, true)
    | Err e => Err e
    | Panic m => Panic m
    end.

(** ** ECN codepoints ([internal/protocol], not under [src/]) *)

(** Modelled from the spec: [protocol.ECN], [ParseECNHeaderBits] and
    [ToHeaderBits] of [internal/protocol] — the five values
    {Unsupported, Not-ECT, ECT(1), ECT(0), CE} and the two ECN bits of the IP
    header (RFC 3168), with the codepoints of [internal/protocol]:
    Not-ECT 0, ECT(1) 1, ECT(0) 2, CE 3. *)
Inductive ECN := ECNUnsupported | ECNNon | ECT1 | ECT0 | ECNCE.

Definition ParseECNHeaderBits (bits : Z) : res ECN :=
  if bits =? 0 then Ok ECNNon
  else if bits =? 2 then Ok ECT0
  else if bits =? 1 then Ok ECT1
  else if bits =? 3 then Ok ECNCE
  else Panic "invalid ECN bits".

Definition ToHeaderBits (e : ECN) : res Z :=
  match e with
  | ECNNon => Ok 0 | ECT0 => Ok 2 | ECT1 => Ok 1 | ECNCE => Ok 3
  | ECNUnsupported => Panic "ECN unsupported"
  end.

Definition ecn_eqb (a b : ECN) : bool :=
  match a, b with
  | ECNUnsupported, ECNUnsupported | ECNNon, ECNNon | ECT1, ECT1
  | ECT0, ECT0 | ECNCE, ECNCE => true
  | _, _ => false
  end.

(** ** Connection state *)

(** [net.Addr]: nil, a [*net.UDPAddr], or an address of another type. *)
Inductive net_Addr :=
| NilAddr
| UDPAddr (ip : list Z) (port : Z)
| OtherAddr (network : string).

Record packetInfo := mkPacketInfo { addr : netip_Addr; ifIndex : Z }.

(** [receivedPacket] as [ReadPacket] fills it ([rcvTime], [time.Now()], is
    left out); [data] is [Buffers[0][:N]], written as the buffer and [N]. *)
Record receivedPacket := mkReceivedPacket {
  remoteAddr : net_Addr;
  data : option nat * nat;
  buffer : option nat;
  ecn : ECN;
  info : packetInfo
}.

Definition receivedPacket_zero : receivedPacket :=
  mkReceivedPacket NilAddr (None, 0%nat) None ECNUnsupported (mkPacketInfo AddrZero 0).

(** [ipv4.Message]: [Buffers[0]] (a pool buffer, [None] while nil), the [OOB]
    memory, [N], [NN] and [Addr]. *)
Record message := mkMessage {
  Buffers0 : option nat;
  OOB : nat -> byte;
  N : nat;
  NN : nat;
  Addr : net_Addr
}.

Record connCapabilities := mkCaps { DF : bool; GSO : bool; ECN_ : bool }.

(** [oobConn]: [messages] is a slice of length [mlen] over the backing array
    [backing] of [batchSize] messages; [buffers] is the [[batchSize]] array. *)
Record oobConn := mkConn {
  backing : list message;
  mlen : nat;
  readPos : nat;  (* uint8 *)
  buffers : list (option nat);
  cap : connCapabilities
}.

Definition batchSize : nat := 1.
Definition oobBufferSize : nat := 128.
Definition MaxPacketBufferSize : nat := 1452.
Definition ecnMask : Z := 3.

(** Process-wide state: the two [sync.Once] of the invalid packet-info
    diagnostics, the log, and the packet-buffer pool (fresh buffer ids). *)
Inductive log_line := LogV4 (body : list Z) | LogV6 (body : list Z).

Record globals := mkGlobals {
  invalidCmsgOnceV4 : bool;
  invalidCmsgOnceV6 : bool;
  logs : list log_line;
  nextBuf : nat
}.

Definition globals0 : globals := mkGlobals false false [] 1.

Definition getPacketBuffer (g : globals) : nat * globals :=
  (nextBuf g, mkGlobals (invalidCmsgOnceV4 g) (invalidCmsgOnceV6 g) (logs g) (S (nextBuf g))).

Definition onceV4_Do (body : slice) (g : globals) : globals :=
  if invalidCmsgOnceV4 g then g
  else mkGlobals true (invalidCmsgOnceV6 g)
         (logs g ++ [LogV4 (slice_bytes body 0 (s_len body))]) (nextBuf g).

Definition onceV6_Do (body : slice) (g : globals) : globals :=
  if invalidCmsgOnceV6 g then g
  else mkGlobals (invalidCmsgOnceV4 g) true
         (logs g ++ [LogV6 (slice_bytes body 0 (s_len body))]) (nextBuf g).

(** [newConn] once its socket options are set: every slot has a nil
    [Buffers[0]] and a zeroed 128-byte [OOB], and [readPos = batchSize]. *)
Definition message0 : message := mkMessage None (fun _ => x00) 0 0 NilAddr.

Definition newConn_state (caps : connCapabilities) : oobConn :=
  mkConn (repeat message0 batchSize) batchSize batchSize (repeat None batchSize) caps.

(** ** [ReadPacket] *)

(** The answer of [batchConn.ReadBatch]: [n], [err], and what the kernel
    wrote into the first messages (address, [N], [OOB] bytes, [NN]). *)
Record delivery := mkDelivery {
  d_Addr : net_Addr; d_N : nat; d_OOB : nat -> byte; d_NN : nat }.

Record batch_reply := mkReply {
  rb_n : nat; rb_err : option error; rb_fill : list delivery }.

Fixpoint kernel_fill (ms : list message) (ds : list delivery) : list message :=
  match ms, ds with
  | m :: ms', d :: ds' =>
      mkMessage (Buffers0 m) (d_OOB d) (d_N d) (d_NN d) (d_Addr d) :: kernel_fill ms' ds'
  | _, _ => ms
  end.

Definition set_Buffers0 (m : message) (b : option nat) : message :=
  mkMessage b (OOB m) (N m) (NN m) (Addr m).

(** [for i := uint8(0); i < c.readPos; i++ { ... }], from [i] on, [k] more
    iterations. *)
Fixpoint refill (k i : nat) (c : oobConn) (g : globals) : res (oobConn * globals) :=
  match k with
  | O => Ok (c, g)
  | S k' =>
      if negb (i <? batchSize)%nat then Panic "index out of range"
      else if negb (i <? mlen c)%nat then Panic "index out of range"
      else
        let '(bid, g') := getPacketBuffer g in
        let c' := mkConn
          (list_set (backing c) i (set_Buffers0 (nth i (backing c) message0) (Some bid)))
          (mlen c) (readPos c) (list_set (buffers c) i (Some bid)) (cap c) in
        refill k' (S i) c' g'
  end.

Inductive slot_outcome :=
| SlotPanic (msg : string)
| SlotEmpty (c : oobConn) (g : globals) (err : option error)
| SlotOk (c : oobConn) (g : globals) (issued : bool) (msg : message) (buf : option nat).

(** Lines 116-136: the batch cursor. [issued] is whether [ReadBatch] was
    called. *)
Definition next_slot (c : oobConn) (g : globals) (rb : batch_reply) : slot_outcome :=
  let pre : string + ((oobConn * globals * option error) + (oobConn * globals * bool)) :=
    if (mlen c =? readPos c)%nat then
      (* c.messages = c.messages[:batchSize] *)
      if negb (batchSize <=? length (backing c))%nat then inl "slice bounds out of range"%string
      else
        let c1 := mkConn (backing c) batchSize (readPos c) (buffers c) (cap c) in
        match refill (readPos c) 0 c1 g with
        | Ok (c2, g2) =>
            let c3 := mkConn (kernel_fill (backing c2) (rb_fill rb)) (mlen c2) 0
                             (buffers c2) (cap c2) in
            if (rb_n rb =? 0)%nat || (match rb_err rb with Some _ => true | None => false end)
            then inr (inl (c3, g2, rb_err rb))
            else if negb (rb_n rb <=? length (backing c3))%nat then inl "slice bounds out of range"%string
            else inr (inr (mkConn (backing c3) (rb_n rb) (readPos c3) (buffers c3) (cap c3), g2, true))
        | Err _ => inl "unreachable"%string
        | Panic m => inl m
        end
    else inr (inr (c, g, false)) in
  match pre with
  | inl m => SlotPanic m
  | inr (inl (c', g', err)) => SlotEmpty c' g' err
  | inr (inr (c', g', issued)) =>
      if negb (readPos c' <? mlen c')%nat then SlotPanic "index out of range"
      else if negb (readPos c' <? batchSize)%nat then SlotPanic "index out of range"
      else
        let msg := nth (readPos c') (backing c') message0 in
        let buf := nth (readPos c') (buffers c') None in
        SlotOk (mkConn (backing c') (mlen c') ((readPos c' + 1) mod 256) (buffers c') (cap c'))
               g' issued msg buf
  end.

(** Lines 150-166: records at level [IPPROTO_IP]. *)
Definition handle_ip (g : globals) (p : receivedPacket) (hdr : Cmsghdr) (body : slice)
  : globals * res receivedPacket :=
  if Level hdr =? IPPROTO_IP then
    if Type_ hdr =? IP_TOS then
      if (s_len body =? 0)%nat then (g, Panic "index out of range [0] with length 0")
      else match ParseECNHeaderBits (Z.land (bz (s_mem body 0)) ecnMask) with
           | Ok e => (g, Ok (mkReceivedPacket (remoteAddr p) (data p) (buffer p) e (info p)))
           | Err e => (g, Err e)
           | Panic m => (g, Panic m)
           end
    else if Type_ hdr =? IP_PKTINFO then
      match parseIPv4PktInfo body with
      | Ok (ip, ifIdx, true) =>
          (g, Ok (mkReceivedPacket (remoteAddr p) (data p) (buffer p) (ecn p) (mkPacketInfo ip ifIdx)))
      | Ok (_, _, false) => (onceV4_Do body g, Ok p)
      | Err e => (g, Err e)
      | Panic m => (g, Panic m)
      end
    else (g, Ok p)
  else (g, Ok p).

(** Lines 167-186: records at level [IPPROTO_IPV6]. *)
Definition handle_ipv6 (g : globals) (p : receivedPacket) (hdr : Cmsghdr) (body : slice)
  : globals * res receivedPacket :=
  if Level hdr =? IPPROTO_IPV6 then
    if Type_ hdr =? IPV6_RECVTCLASS then
      if (s_len body =? 0)%nat then (g, Panic "index out of range [0] with length 0")
      else match ParseECNHeaderBits (Z.land (bz (s_mem body 0)) ecnMask) with
           | Ok e => (g, Ok (mkReceivedPacket (remoteAddr p) (data p) (buffer p) e (info p)))
           | Err e => (g, Err e)
           | Panic m => (g, Panic m)
           end
    else if Type_ hdr =? IPV6_PKTINFO then
      if (s_len body =? 20)%nat then
        (g, Ok (mkReceivedPacket (remoteAddr p) (data p) (buffer p) (ecn p)
                 (mkPacketInfo (AddrFrom16_Unmap (slice_bytes body 0 16))
                               (bz (s_mem body 16) + 256 * bz (s_mem body 17)
                                + 65536 * bz (s_mem body 18) + 16777216 * bz (s_mem body 19)))))
      else (onceV6_Do body g, Ok p)
    else (g, Ok p)
  else (g, Ok p).

(** Lines 145-188: [for len(data) > 0 { ... data = remainder }]; every
    iteration shortens [data], so [len(data)] iterations suffice. *)
Fixpoint cmsg_loop (fuel : nat) (g : globals) (p : receivedPacket) (data : slice)
  : globals * res receivedPacket :=
  if (s_len data =? 0)%nat then (g, Ok p)
  else
    match fuel with
    | O => (g, Ok p)
    | S fuel' =>
        match snd (ParseOneSocketControlMessage data) with
        | Err e => (g, Err e)
        | Panic m => (g, Panic m)
        | Ok (hdr, body, remainder) =>
            match handle_ip g p hdr body with
            | (g1, Ok p1) =>
                match handle_ipv6 g1 p1 hdr body with
                | (g2, Ok p2) => cmsg_loop fuel' g2 p2 remainder
                | (g2, Err e) => (g2, Err e)
                | (g2, Panic m) => (g2, Panic m)
                end
            | (g1, Err e) => (g1, Err e)
            | (g1, Panic m) => (g1, Panic m)
            end
        end
    end.

Definition parse_chain (g : globals) (p : receivedPacket) (data : slice)
  : globals * res receivedPacket :=
  cmsg_loop (s_len data) g p data.

(** Lines 138-189: the packet of the slot and its control messages. *)
Definition parse_slot (g : globals) (msg : message) (buf : option nat)
  : globals * res receivedPacket :=
  if negb (NN msg <=? oobBufferSize)%nat then (g, Panic "slice bounds out of range")
  else
    let data := mkSlice (OOB msg) (NN msg) in
    let bufcap := match Buffers0 msg with Some _ => MaxPacketBufferSize | None => 0%nat end in
    if negb (N msg <=? bufcap)%nat then (g, Panic "slice bounds out of range")
    else
      let p := mkReceivedPacket (Addr msg) (Buffers0 msg, N msg) buf ECNUnsupported
                 (mkPacketInfo AddrZero 0) in
      parse_chain g p data.

Inductive rp_outcome :=
| RPanic (msg : string)
| RDone (c : oobConn) (g : globals) (issued : bool) (p : receivedPacket) (err : option error).

Definition ReadPacket (c : oobConn) (g : globals) (rb : batch_reply) : rp_outcome :=
  match next_slot c g rb with
  | SlotPanic m => RPanic m
  | SlotEmpty c' g' err => RDone c' g' true receivedPacket_zero err
  | SlotOk c' g' issued msg buf =>
      match parse_slot g' msg buf with
      | (g'', Ok p) => RDone c' g'' issued p None
      | (g'', Err e) => RDone c' g'' issued receivedPacket_zero (Some e)
      | (_, Panic m) => RPanic m
      end
  end.

(** ** [WritePacket] *)

Definition appendECNMsg (level type_ : Z) (b : list byte) (val : ECN) : res (list byte) :=
  let startLen := length b in
  let dataLen := 4 in
  let b := b ++ repeat x00 (Z.to_nat (cmsgLen dataLen)) in
  let b := store_u32 b (startLen + 4) (level mod 2 ^ 32) in
  let b := store_u32 b (startLen + 8) (type_ mod 2 ^ 32) in
  let b := store_u32 b startLen (cmsgLen dataLen mod 2 ^ 32) in
  let offset := (startLen + Z.to_nat (cmsgSpace 0))%nat in
  match ToHeaderBits val with
  | Ok bits => Ok (list_set b offset (zb bits))
  | Err e => Err e
  | Panic m => Panic m
  end.

Definition appendIPv4ECNMsg : list byte -> ECN -> res (list byte) :=
  appendECNMsg IPPROTO_IP IP_TOS.
Definition appendIPv6ECNMsg : list byte -> ECN -> res (list byte) :=
  appendECNMsg IPPROTO_IPV6 IPV6_RECVTCLASS.

(** [net.IP.To4() != nil] *)
Definition To4_ok (ip : list Z) : bool :=
  (length ip =? 4)%nat
  || ((length ip =? 16)%nat
      && (if list_eq_dec Z.eq_dec (firstn 12 ip) [0;0;0;0;0;0;0;0;0;0;255;255]
          then true else false)).

(** The one socket call of the send path. *)
Inductive send_event := WriteMsgUDP (b : list byte) (oob : list byte) (dst : net_Addr).

Inductive wp_result :=
| WPanic (msg : string)
| WReturned (n : Z) (err : option error).

Definition capabilities (c : oobConn) : connCapabilities := cap c.

Definition assertion_panic : string :=
  "interface conversion: net.Addr is not *net.UDPAddr".

(** [reply] is what [WriteMsgUDP] answers if it is called. *)
Definition WritePacket (c : oobConn) (b : list byte) (addr : net_Addr)
    (packetInfoOOB : list byte) (gsoSize : Z) (ecn : ECN) (reply : Z * option error)
  : list send_event * wp_result :=
  let oob := packetInfoOOB in
  let step1 : res (list byte) :=
    if 0 <? gsoSize then
      if negb (GSO (capabilities c)) then Panic "GSO disabled"
      else Ok (appendUDPSegmentSizeMsg oob gsoSize)
    else Ok oob in
  let step2 : res (list byte) :=
    match step1 with
    | Ok oob =>
        if negb (ecn_eqb ecn ECNUnsupported) then
          if negb (ECN_ (capabilities c)) then
            Panic "tried to send an ECN-marked packet although ECN is disabled"
          else
            match addr with
            | UDPAddr ip _ =>
                if To4_ok ip then appendIPv4ECNMsg oob ecn else appendIPv6ECNMsg oob ecn
            | _ => Ok oob
            end
        else Ok oob
    | r => r
    end in
  match step2 with
  | Panic m => ([], WPanic m)
  | Err e => ([], WReturned 0 (Some e))
  | Ok oob =>
      (* the unchecked type assertion to a UDP address *)
      match addr with
      | UDPAddr _ _ => ([WriteMsgUDP b oob addr], WReturned (fst reply) (snd reply))
      | _ => ([], WPanic assertion_panic)
      end
  end.

(** [packetInfo.OOB]: on Windows no control message is written for the
    packet info (line 287). *)
Definition packetInfo_OOB (i : packetInfo) : list byte := [].

(** ** Socket setup: socket options, the GSO probe and [newConn] *)

(** Constants of [golang.org/x/sys/windows], [syscall] and [part_000]. *)
Definition AF_INET : Z := 2.
Definition AF_INET6 : Z := 23.
Definition SOL_SOCKET : Z := 65535.
Definition SO_SNDBUF : Z := 4097.
Definition SO_RCVBUF : Z := 4098.
Definition IP_RECVECN : Z := 50.
Definition IPV6_RECVECN : Z := 50.
Definition GSO_SIZE : Z := 1500.

(** The socket calls and log lines of the setup code, in the order made. *)
Inductive sys_event :=
| EvSocket (family : Z)
| EvSetsockopt (h level opt value : Z)
| EvGetsockopt (h level opt : Z)
| EvClose (h : Z)
| EvDebug (msg : string).

(** The operating system as the setup code sees it: what
    [syscall.Socket(family, SOCK_DGRAM, IPPROTO_UDP)] answers for each family,
    which [setsockopt] and [getsockopt] calls it refuses, the current int32
    value of each option of each socket, and the calls made so far. *)
Record os := mkOS {
  os_socket : Z -> option Z;
  os_setfail : Z -> Z -> Z -> Z -> option error;
  os_getfail : Z -> Z -> Z -> option error;
  os_opt : Z -> Z -> Z -> Z;
  os_trace : list sys_event
}.

Definition M (A : Type) : Type := os -> A * os.
Definition mret {A} (a : A) : M A := fun s => (a, s).
Definition mbind {A B} (m : M A) (f : A -> M B) : M B :=
  fun s => let '(a, s') := m s in f a s'.
Notation "'let!' x ':=' m 'in' k" := (mbind m (fun x => k))
  (at level 200, x pattern, m at level 100, k at level 200).

Definition emit (e : sys_event) (s : os) : os :=
  mkOS (os_socket s) (os_setfail s) (os_getfail s) (os_opt s) (os_trace s ++ [e]).

(** [syscall.Socket(family, syscall.SOCK_DGRAM, syscall.IPPROTO_UDP)] *)
Definition Socket (family : Z) : M (option Z) :=
  fun s => (os_socket s family, emit (EvSocket family) s).

Definition CloseHandle (h : Z) : M unit := fun s => (tt, emit (EvClose h) s).

(** [SetsockoptInt(fd, level, opt, value)] passes [int32(value)]. *)
Definition SetsockoptInt (h level opt value : Z) : M (option error) :=
  fun s =>
    let v := s32 (value mod 2 ^ 32) in
    let s1 := emit (EvSetsockopt h level opt v) s in
    match os_setfail s h level opt v with
    | Some e => (Some e, s1)
    | None =>
        (None, mkOS (os_socket s1) (os_setfail s1) (os_getfail s1)
                 (fun h' l' o' => if (h' =? h) && (l' =? level) && (o' =? opt) then v
                                  else os_opt s1 h' l' o')
                 (os_trace s1))
    end.

(** [GetsockoptInt(fd, level, opt)]: [int(v)] of the int32 [v], which stays
    0 when the call fails. *)
Definition GetsockoptInt (h level opt : Z) : M (Z * option error) :=
  fun s =>
    let s1 := emit (EvGetsockopt h level opt) s in
    match os_getfail s h level opt with
    | Some e => ((0, Some e), s1)
    | None => ((os_opt s h level opt, None), s1)
    end.

(** [utils.DefaultLogger.Debugf(msg)] *)
Definition Debugf (msg : string) : M unit := fun s => (tt, emit (EvDebug msg) s).

(** [syscall.RawConn]: [Control(f)] runs [f] on the socket handle, or fails
    before running it (the standard library's [rawConn.Control] fails only
    when the connection is closed, before calling [f]). *)
Record rawConn := mkRawConn { controlErr : option error; fd : Z }.

(** [Control(f)] with an [f] that sets captured variables: their values
    ([init], the zero values, when [f] does not run) and [Control]'s error. *)
Definition Control {A} (rc : rawConn) (init : A) (f : Z -> M A) : M (A * option error) :=
  match controlErr rc with
  | Some e => mret (init, Some e)
  | None => let! a := f (fd rc) in mret (a, None)
  end.

Definition forceSetReceiveBuffer (c : rawConn) (bytes : Z) : M (option error) :=
  let! (serr, err) :=
    Control c None (fun fd => SetsockoptInt fd SOL_SOCKET SO_RCVBUF bytes) in
  match err with Some e => mret (Some e) | None => mret serr end.

Definition forceSetSendBuffer (c : rawConn) (bytes : Z) : M (option error) :=
  let! (serr, err) :=
    Control c None (fun fd => SetsockoptInt fd SOL_SOCKET SO_SNDBUF bytes) in
  match err with Some e => mret (Some e) | None => mret serr end.

Definition inspectReadBuffer (c : rawConn) : M (Z * option error) :=
  let! ((size, serr), err) :=
    Control c (0, None) (fun fd => GetsockoptInt fd SOL_SOCKET SO_RCVBUF) in
  match err with Some e => mret (0, Some e) | None => mret (size, serr) end.

Definition inspectWriteBuffer (c : rawConn) : M (Z * option error) :=
  let! ((size, serr), err) :=
    Control c (0, None) (fun fd => GetsockoptInt fd SOL_SOCKET SO_SNDBUF) in
  match err with Some e => mret (0, Some e) | None => mret (size, serr) end.

Definition getMaxGSOSegments : M Z :=
  let! dummy := Socket AF_INET6 in
  let! dummy := match dummy with
                | Some h => mret (Some h)
                | None => Socket AF_INET
                end in
  match dummy with
  | None => mret 1
  | Some h =>
      let! err := SetsockoptInt h IPPROTO_UDP UDP_SEND_MSG_SIZE GSO_SIZE in
      (* defer syscall.CloseHandle(dummy) *)
      let! _ := CloseHandle h in
      mret (match err with Some _ => 1 | None => 512 end)
  end.

Definition isGSOEnabled (conn : rawConn) : M bool :=
  let! gsoSegmentSize := getMaxGSOSegments in
  mret (gsoSegmentSize =? 512).

Definition isECNEnabled : bool := true.

(** [net.IP.Equal] and [net.IP.IsUnspecified] *)
Definition v4InV6Prefix : list Z := [0; 0; 0; 0; 0; 0; 0; 0; 0; 0; 255; 255].

Definition bytes_eqb (a b : list Z) : bool :=
  if list_eq_dec Z.eq_dec a b then true else false.

Definition IP_Equal (ip x : list Z) : bool :=
  if (length ip =? length x)%nat then bytes_eqb ip x
  else if (length ip =? 4)%nat && (length x =? 16)%nat then
    bytes_eqb (firstn 12 x) v4InV6Prefix && bytes_eqb ip (skipn 12 x)
  else if (length ip =? 16)%nat && (length x =? 4)%nat then
    bytes_eqb (firstn 12 ip) v4InV6Prefix && bytes_eqb (skipn 12 ip) x
  else false.

(** [net.IPv4zero] is [IPv4(0, 0, 0, 0)], in its 16-byte form. *)
Definition IPv4zero : list Z := v4InV6Prefix ++ [0; 0; 0; 0].
Definition IPv6unspecified : list Z := repeat 0 16.

Definition IsUnspecified (ip : list Z) : bool :=
  IP_Equal ip IPv4zero || IP_Equal ip IPv6unspecified.

(** [OOBCapablePacketConn] as [newConn] uses it: [SyscallConn()] and
    [LocalAddr()]. Which [batchConn] is chosen (lines 84-89) is not part of
    the state: [ReadBatch]'s answer is an input of [ReadPacket]. *)
Record packetConn := mkPacketConn { syscallConn : rawConn + error; localAddr : net_Addr }.

(** The errors [newConn] returns: a socket call's, or an [errors.New]. *)
Inductive setup_error := SetupErr (e : error) | SetupMsg (msg : string).

Definition newConn (c : packetConn) (supportsDF : bool) : M (oobConn + setup_error) :=
  match syscallConn c with
  | inr err => mret (inr (SetupErr err))
  | inl rawConn =>
      let needsPacketInfo :=
        match localAddr c with UDPAddr ip _ => IsUnspecified ip | _ => false end in
      let! (errECNIPv4, errECNIPv6, errPIIPv4, errPIIPv6, err) :=
        Control rawConn (None, None, None, None) (fun fd =>
          let! e1 := SetsockoptInt fd IPPROTO_IP IP_RECVECN 1 in
          let! e2 := SetsockoptInt fd IPPROTO_IPV6 IPV6_RECVECN 1 in
          if needsPacketInfo then
            let! e3 := SetsockoptInt fd IPPROTO_IP IP_PKTINFO 1 in
            let! e4 := SetsockoptInt fd IPPROTO_IPV6 IPV6_PKTINFO 1 in
            mret (e1, e2, e3, e4)
          else mret (e1, e2, None, None)) in
      match err with
      | Some e => mret (inr (SetupErr e))
      | None =>
          let! ecn_ok :=
            match errECNIPv4, errECNIPv6 with
            | None, None =>
                let! _ := Debugf "Activating reading of ECN bits for IPv4 and IPv6." in mret true
            | None, Some _ =>
                let! _ := Debugf "Activating reading of ECN bits for IPv4." in mret true
            | Some _, None =>
                let! _ := Debugf "Activating reading of ECN bits for IPv6." in mret true
            | Some _, Some _ => mret false
            end in
          if negb ecn_ok
          then mret (inr (SetupMsg "activating ECN failed for both IPv4 and IPv6"))
          else
            let! pi_ok :=
              if needsPacketInfo then
                match errPIIPv4, errPIIPv6 with
                | None, None =>
                    let! _ := Debugf "Activating reading of packet info for IPv4 and IPv6." in
                    mret true
                | None, Some _ =>
                    let! _ := Debugf "Activating reading of packet info bits for IPv4." in
                    mret true
                | Some _, None =>
                    let! _ := Debugf "Activating reading of packet info bits for IPv6." in
                    mret true
                | Some _, Some _ => mret false
                end
              else mret true in
            if negb pi_ok
            then mret (inr (SetupMsg "activating packet info failed for both IPv4 and IPv6"))
            else
              let! gso := isGSOEnabled rawConn in
              mret (inl (newConn_state (mkCaps supportsDF gso isECNEnabled)))
      end
  end.

(** ** Lemmas on bytes *)

Lemma bz_zb (z : Z) : bz (zb z) = z mod 256.
Proof.
  unfold zb, bz.
  pose proof (Byte.to_of_N_option_map (Z.to_N (z mod 256))) as H.
  assert (Hr : 0 <= z mod 256 < 256) by (apply Z.mod_pos_bound; lia).
  destruct (Byte.of_N (Z.to_N (z mod 256))) as [b|] eqn:E; simpl in H.
  - destruct (Z.to_N (z mod 256) <=? 255)%N; [|discriminate].
    injection H as H. rewrite H. apply Z2N.id. lia.
  - destruct (Z.to_N (z mod 256) <=? 255)%N eqn:L; [discriminate|].
    apply N.leb_gt in L. lia.
Qed.

Lemma bz_range (x : byte) : 0 <= bz x < 256.
Proof. unfold bz. pose proof (Byte.to_N_bounded x). lia. Qed.

(** The record [appendUDPSegmentSizeMsg] appends to an empty buffer. *)
Lemma appendUDPSegmentSizeMsg_nil (size : Z) :
  appendUDPSegmentSizeMsg [] size =
  [x0e; x00; x00; x00; x11; x00; x00; x00; x02; x00; x00; x00;
   zb size; zb (size / 256); x00; x00].
Proof. reflexivity. Qed.

Lemma load_u16_eq (b : slice) (off : nat) :
  snd (load_u16 b off) = bz (s_mem b off) + 256 * bz (s_mem b (off + 1)).
Proof. reflexivity. Qed.

Lemma load_u32_eq (b : slice) (off : nat) :
  snd (load_u32 b off) =
  bz (s_mem b off) + 256 * bz (s_mem b (off + 1)) + 65536 * bz (s_mem b (off + 2))
  + 16777216 * bz (s_mem b (off + 3)).
Proof. reflexivity. Qed.

Lemma load_u32_range (b : slice) (off : nat) : 0 <= snd (load_u32 b off) < 2 ^ 32.
Proof.
  rewrite load_u32_eq.
  pose proof (bz_range (s_mem b off)). pose proof (bz_range (s_mem b (off + 1))).
  pose proof (bz_range (s_mem b (off + 2))). pose proof (bz_range (s_mem b (off + 3))).
  lia.
Qed.

(** ** Alignment *)

Lemma land_lnot3 (x : Z) : Z.land x (Z.lnot 3) = x / 4 * 4.
Proof.
  rewrite <- Z.ldiff_land. change 3 with (Z.ones 2).
  rewrite Z.ldiff_ones_r by lia.
  rewrite Z.shiftl_mul_pow2, Z.shiftr_div_pow2 by lia. reflexivity.
Qed.

Lemma cmsgDataAlign_eq (x : Z) : 0 <= x < 2 ^ 32 -> cmsgDataAlign x = (x + 3) / 4 * 4.
Proof.
  intros H. unfold cmsgDataAlign, uintptr_wrap, uint32Align.
  replace (x + 4 - 1) with (x + 3) by lia. replace (4 - 1) with 3 by lia.
  rewrite land_lnot3. apply Z.mod_small.
  pose proof (Z.div_pos (x + 3) 4). pose proof (Z.div_mul_le (x + 3) 4).
  assert ((x + 3) / 4 * 4 <= x + 3) by (pose proof (Z.mul_div_le (x + 3) 4); lia).
  lia.
Qed.

Lemma cmsgDataAlign_ge (x : Z) : 0 <= x < 2 ^ 32 -> x <= cmsgDataAlign x.
Proof.
  intros H. rewrite cmsgDataAlign_eq by lia.
  pose proof (Z.div_mod (x + 3) 4). pose proof (Z.mod_pos_bound (x + 3) 4). lia.
Qed.

(** ** [ParseOneSocketControlMessage], evaluated *)

Lemma ParseOne_eq (b : slice) :
  snd (ParseOneSocketControlMessage b) =
  if (s_len b =? 0)%nat then Panic "index out of range [0] with length 0"
  else
    let hlen := snd (load_u32 b 0) in
    if (hlen <? cmsgSize) || (Z.of_nat (s_len b) <? hlen) then Err EINVAL
    else Ok (snd (load_Cmsghdr b),
             mkSlice (fun k => s_mem b (12 + k)%nat) (Z.to_nat hlen - 12),
             if cmsgDataAlign hlen <? Z.of_nat (s_len b)
             then skip b (Z.to_nat (cmsgDataAlign hlen)) else nil_slice).
Proof.
  unfold ParseOneSocketControlMessage, socketControlMessageHeaderAndData.
  destruct (s_len b =? 0)%nat eqn:E0; [reflexivity|].
  unfold rbind. destruct (load_u32 b 0) as [t hlen]. cbn [snd fst].
  destruct ((hlen <? cmsgSize) || (Z.of_nat (s_len b) <? hlen)) eqn:EC.
  - reflexivity.
  - apply orb_false_iff in EC as [E1 E2].
    apply Z.ltb_ge in E1. apply Z.ltb_ge in E2. unfold cmsgSize in E1.
    unfold sub. change (Z.to_nat (cmsgDataAlign cmsgSize)) with 12%nat.
    replace ((12 <=? Z.to_nat hlen)%nat && (Z.to_nat hlen <=? s_len b)%nat) with true
      by (symmetry; apply andb_true_iff; split; apply Nat.leb_le; lia).
    destruct (load_Cmsghdr b). reflexivity.
Qed.

Lemma ParseOne_ok_remainder_shorter (b : slice) (hdr : Cmsghdr) (body rem : slice) :
  snd (ParseOneSocketControlMessage b) = Ok (hdr, body, rem) ->
  (s_len rem < s_len b)%nat.
Proof.
  rewrite ParseOne_eq. pose proof (load_u32_range b 0) as HR.
  remember (snd (load_u32 b 0)) as hlen eqn:Eh. clear Eh.
  destruct (s_len b =? 0)%nat eqn:E0; [discriminate|]. cbv zeta.
  destruct ((hlen <? cmsgSize) || (Z.of_nat (s_len b) <? hlen)) eqn:EC; [discriminate|].
  intros H. injection H as _ _ <-.
  apply orb_false_iff in EC as [E1 E2]. apply Z.ltb_ge in E1. unfold cmsgSize in E1.
  apply Nat.eqb_neq in E0.
  pose proof (cmsgDataAlign_ge hlen HR).
  set (i := cmsgDataAlign hlen) in *.
  assert (Z.of_nat (Z.to_nat i) = i) by (apply Z2Nat.id; lia).
  destruct (i <? Z.of_nat (s_len b)); cbn [s_len skip nil_slice]; lia.
Qed.

(** The offsets [ParseOneSocketControlMessage] reads. *)
Lemma ParseOne_reads (b : slice) :
  fst (ParseOneSocketControlMessage b) =
  if (s_len b =? 0)%nat then []
  else
    let hlen := snd (load_u32 b 0) in
    [0; 1; 2; 3]%nat ++
    (if (hlen <? cmsgSize) || (Z.of_nat (s_len b) <? hlen) then []
     else [0; 1; 2; 3]%nat ++ [0; 1; 2; 3; 4; 5; 6; 7; 8; 9; 10; 11]%nat).
Proof.
  unfold ParseOneSocketControlMessage, socketControlMessageHeaderAndData.
  destruct (s_len b =? 0)%nat; [reflexivity|].
  assert (Ht : fst (load_u32 b 0) = [0; 1; 2; 3]%nat) by reflexivity.
  assert (Hh : fst (load_Cmsghdr b) = [0; 1; 2; 3; 4; 5; 6; 7; 8; 9; 10; 11]%nat)
    by reflexivity.
  unfold rbind. destruct (load_u32 b 0) as [t hlen]. cbn [fst snd] in *. subst t.
  destruct ((hlen <? cmsgSize) || (Z.of_nat (s_len b) <? hlen)) eqn:EC; [reflexivity|].
  apply orb_false_iff in EC as [E1 E2].
  apply Z.ltb_ge in E1. apply Z.ltb_ge in E2. unfold cmsgSize in E1.
  unfold sub. change (Z.to_nat (cmsgDataAlign cmsgSize)) with 12%nat.
  replace ((12 <=? Z.to_nat hlen)%nat && (Z.to_nat hlen <=? s_len b)%nat) with true
    by (symmetry; apply andb_true_iff; split; apply Nat.leb_le; lia).
  destruct (load_Cmsghdr b) as [t' h]. cbn [fst] in Hh. subst t'. reflexivity.
Qed.

(** A buffer whose declared length is below the header size or beyond the
    buffer is refused with [EINVAL]. *)
Lemma ParseOne_bad_length (b : slice) :
  (0 < s_len b)%nat ->
  snd (load_u32 b 0) < cmsgSize \/ Z.of_nat (s_len b) < snd (load_u32 b 0) ->
  snd (ParseOneSocketControlMessage b) = Err EINVAL.
Proof.
  intros Hn Hl. rewrite ParseOne_eq.
  destruct (s_len b =? 0)%nat eqn:E; [apply Nat.eqb_eq in E; lia|]. cbv zeta.
  replace ((snd (load_u32 b 0) <? cmsgSize) || (Z.of_nat (s_len b) <? snd (load_u32 b 0)))
    with true; [reflexivity|].
  symmetry. apply orb_true_iff. destruct Hl; [left|right]; apply Z.ltb_lt; assumption.
Qed.

(** Once the buffer holds the 4-byte length field, every read is inside it. *)
Lemma ParseOne_reads_in_bounds (b : slice) :
  (4 <= s_len b)%nat ->
  forall k, In k (fst (ParseOneSocketControlMessage b)) -> (k < s_len b)%nat.
Proof.
  intros H4 k. rewrite ParseOne_reads.
  destruct (s_len b =? 0)%nat eqn:E; [contradiction|]. cbv zeta.
  destruct ((snd (load_u32 b 0) <? cmsgSize) || (Z.of_nat (s_len b) <? snd (load_u32 b 0))) eqn:EC.
  - simpl. intuition lia.
  - apply orb_false_iff in EC as [E1 E2].
    apply Z.ltb_ge in E1. apply Z.ltb_ge in E2. unfold cmsgSize in E1.
    assert (12 <= s_len b)%nat by lia.
    simpl. intuition lia.
Qed.

(** ** The control-message loop *)

Lemma cmsg_loop_fuel_irrel (f1 : nat) :
  forall f2 g p d, (s_len d <= f1)%nat -> (s_len d <= f2)%nat ->
  cmsg_loop f1 g p d = cmsg_loop f2 g p d.
Proof.
  induction f1 as [|f1 IH]; intros f2 g p d H1 H2.
  - destruct f2; simpl; [reflexivity|].
    replace (s_len d =? 0)%nat with true by (symmetry; apply Nat.eqb_eq; lia). reflexivity.
  - destruct (s_len d =? 0)%nat eqn:E.
    + destruct f2; simpl; rewrite E; reflexivity.
    + apply Nat.eqb_neq in E. destruct f2 as [|f2]; [lia|].
      simpl. rewrite (proj2 (Nat.eqb_neq _ _) E).
      destruct (snd (ParseOneSocketControlMessage d)) as [[[hdr body] rem]|e|m] eqn:EP;
        try reflexivity.
      pose proof (ParseOne_ok_remainder_shorter _ _ _ _ EP).
      destruct (handle_ip g p hdr body) as [g1 [p1|e|m]]; try reflexivity.
      destruct (handle_ipv6 g1 p1 hdr body) as [g2 [p2|e|m]]; try reflexivity.
      apply IH; lia.
Qed.

Lemma parse_chain_step (g : globals) (p : receivedPacket) (b : slice)
    (hdr : Cmsghdr) (body rem : slice) :
  snd (ParseOneSocketControlMessage b) = Ok (hdr, body, rem) ->
  parse_chain g p b =
  match handle_ip g p hdr body with
  | (g1, Ok p1) =>
      match handle_ipv6 g1 p1 hdr body with
      | (g2, Ok p2) => parse_chain g2 p2 rem
      | (g2, Err e) => (g2, Err e)
      | (g2, Panic m) => (g2, Panic m)
      end
  | (g1, Err e) => (g1, Err e)
  | (g1, Panic m) => (g1, Panic m)
  end.
Proof.
  intros EP. pose proof (ParseOne_ok_remainder_shorter _ _ _ _ EP) as Hlt.
  unfold parse_chain. destruct (s_len b) as [|n] eqn:En; [lia|].
  simpl. rewrite En. simpl. rewrite EP.
  destruct (handle_ip g p hdr body) as [g1 [p1|e|m]]; try reflexivity.
  destruct (handle_ipv6 g1 p1 hdr body) as [g2 [p2|e|m]]; try reflexivity.
  apply cmsg_loop_fuel_irrel; lia.
Qed.

Lemma slice_of_1_len (beyond : nat -> byte) : s_len (slice_of [x00] beyond) = 1%nat.
Proof. reflexivity. Qed.

(** The [(level, type)] pairs [ReadPacket] decodes. *)
Definition cmsg_known (level type_ : Z) : bool :=
  ((level =? IPPROTO_IP) && ((type_ =? IP_TOS) || (type_ =? IP_PKTINFO)))
  || ((level =? IPPROTO_IPV6) && ((type_ =? IPV6_RECVTCLASS) || (type_ =? IPV6_PKTINFO))).

Lemma handle_ip_other (g : globals) (p : receivedPacket) (hdr : Cmsghdr) (body : slice) :
  ~ (Level hdr = IPPROTO_IP /\ (Type_ hdr = IP_TOS \/ Type_ hdr = IP_PKTINFO)) ->
  handle_ip g p hdr body = (g, Ok p).
Proof.
  intros H. unfold handle_ip.
  destruct (Level hdr =? IPPROTO_IP) eqn:E1; [|reflexivity].
  apply Z.eqb_eq in E1.
  destruct (Type_ hdr =? IP_TOS) eqn:E2; [apply Z.eqb_eq in E2; tauto|].
  destruct (Type_ hdr =? IP_PKTINFO) eqn:E3; [apply Z.eqb_eq in E3; tauto|].
  reflexivity.
Qed.

Lemma handle_ipv6_other (g : globals) (p : receivedPacket) (hdr : Cmsghdr) (body : slice) :
  ~ (Level hdr = IPPROTO_IPV6 /\ (Type_ hdr = IPV6_RECVTCLASS \/ Type_ hdr = IPV6_PKTINFO)) ->
  handle_ipv6 g p hdr body = (g, Ok p).
Proof.
  intros H. unfold handle_ipv6.
  destruct (Level hdr =? IPPROTO_IPV6) eqn:E1; [|reflexivity].
  apply Z.eqb_eq in E1.
  destruct (Type_ hdr =? IPV6_RECVTCLASS) eqn:E2; [apply Z.eqb_eq in E2; tauto|].
  destruct (Type_ hdr =? IPV6_PKTINFO) eqn:E3; [apply Z.eqb_eq in E3; tauto|].
  reflexivity.
Qed.

(** ** Claims on the control-message codec *)

(** C2: for every 16-bit segmentation size, parsing the record that
    [appendUDPSegmentSizeMsg] appends to an empty buffer gives a header whose
    2-byte payload decodes to that size, and an empty remainder (whatever
    lies in memory after the appended bytes). *)
Theorem parse_appendUDPSegmentSizeMsg_roundtrip (size : Z) (beyond : nat -> byte) :
  0 <= size < 2 ^ 16 ->
  exists hdr body remainder,
    snd (ParseOneSocketControlMessage (slice_of (appendUDPSegmentSizeMsg [] size) beyond))
      = Ok (hdr, body, remainder)
    /\ s_len body = 2%nat /\ snd (load_u16 body 0) = size /\ s_len remainder = 0%nat.
Proof.
  intros H. rewrite appendUDPSegmentSizeMsg_nil.
  eexists _, _, _. split; [reflexivity|]. split; [reflexivity|]. split; [|reflexivity].
  rewrite load_u16_eq.
  match goal with |- bz ?A + 256 * bz ?B = _ =>
    replace A with (zb size) by reflexivity; replace B with (zb (size / 256)) by reflexivity end.
  rewrite !bz_zb.
  rewrite (Z.mod_small (size / 256)) by (split; [apply Z.div_pos | apply Z.div_lt_upper_bound]; lia).
  pose proof (Z.div_mod size 256). lia.
Qed.

Lemma parse_appendUDPSegmentSizeMsg_roundtrip_witness :
  (0 <= 1452 < 2 ^ 16) /\
  exists hdr body remainder,
    snd (ParseOneSocketControlMessage (slice_of (appendUDPSegmentSizeMsg [] 1452) (fun _ => xff)))
      = Ok (hdr, body, remainder)
    /\ s_len body = 2%nat /\ snd (load_u16 body 0) = 1452 /\ s_len remainder = 0%nat.
Proof.
  split; [lia|]. apply parse_appendUDPSegmentSizeMsg_roundtrip. lia.
Defined.

(** C3: on a one-byte buffer, [ParseOneSocketControlMessage] loads the 4-byte
    length field through the header pointer and so reads offsets 1, 2 and 3,
    past the end of the buffer, whatever is stored there; the result is
    [EINVAL]. *)
Theorem ParseOne_one_byte_reads_past_end (beyond : nat -> byte) :
  let r := ParseOneSocketControlMessage (slice_of [x00] beyond) in
  snd r = Err EINVAL /\
  (forall k, In k [1; 2; 3]%nat -> In k (fst r) /\ (s_len (slice_of [x00] beyond) <= k)%nat).
Proof.
  cbv zeta. split.
  - apply ParseOne_bad_length; [rewrite slice_of_1_len; lia|].
    rewrite slice_of_1_len. unfold cmsgSize.
    destruct (Z.lt_ge_cases (snd (load_u32 (slice_of [x00] beyond) 0)) 12); [left|right]; lia.
  - intros k Hk. rewrite ParseOne_reads, slice_of_1_len. cbv zeta. simpl.
    destruct Hk as [<-|[<-|[<-|[]]]]; split; try lia; tauto.
Qed.

(** ** Claims on the control-message loop *)

(** C9: a record whose [(level, type)] pair is not one [ReadPacket] decodes
    is skipped: the loop continues on the remainder with the packet and the
    process state unchanged, and no error. *)
Theorem parse_chain_skips_unknown (g : globals) (p : receivedPacket) (b : slice)
    (hdr : Cmsghdr) (body rem : slice) :
  snd (ParseOneSocketControlMessage b) = Ok (hdr, body, rem) ->
  cmsg_known (Level hdr) (Type_ hdr) = false ->
  parse_chain g p b = parse_chain g p rem.
Proof.
  intros EP Hk. rewrite (parse_chain_step g p b hdr body rem EP).
  unfold cmsg_known in Hk.
  rewrite handle_ip_other.
  - rewrite handle_ipv6_other; [reflexivity|].
    intros [E1 [E2|E2]]; rewrite E1, E2 in Hk; discriminate.
  - intros [E1 [E2|E2]]; rewrite E1, E2 in Hk; discriminate.
Qed.

(** A record at level 99, type 99 followed by an IPv4 [IP_TOS] record. *)
Definition unknown_then_tos : list byte :=
  [x0c; x00; x00; x00; x63; x00; x00; x00; x63; x00; x00; x00;
   x10; x00; x00; x00; x00; x00; x00; x00; x03; x00; x00; x00; x02; x00; x00; x00].

Lemma parse_chain_skips_unknown_witness :
  exists hdr body rem,
    snd (ParseOneSocketControlMessage (slice_of unknown_then_tos (fun _ => x00)))
      = Ok (hdr, body, rem) /\
    cmsg_known (Level hdr) (Type_ hdr) = false /\
    parse_chain globals0 receivedPacket_zero (slice_of unknown_then_tos (fun _ => x00)) =
    parse_chain globals0 receivedPacket_zero rem.
Proof.
  do 3 eexists. split; [reflexivity|]. split; [reflexivity|].
  eapply parse_chain_skips_unknown; reflexivity.
Defined.

(** ** The once-logged packet-info diagnostics *)

Definition is_v4 (l : log_line) : bool := match l with LogV4 _ => true | LogV6 _ => false end.
Definition is_v6 (l : log_line) : bool := match l with LogV4 _ => false | LogV6 _ => true end.
Definition count_v4 (ls : list log_line) : nat := length (filter is_v4 ls).
Definition count_v6 (ls : list log_line) : nat := length (filter is_v6 ls).

(** The process states reachable by [ReadPacket] calls on any connections
    (the two [sync.Once] are package variables shared by all of them). *)
Inductive greachable : globals -> Prop :=
| gr_init : greachable globals0
| gr_step (c : oobConn) (g : globals) (rb : batch_reply) (c' : oobConn) (g' : globals)
    (iss : bool) (p : receivedPacket) (e : option error) :
    greachable g -> ReadPacket c g rb = RDone c' g' iss p e -> greachable g'.

Definition ginv (g : globals) : Prop :=
  (count_v4 (logs g) <= if invalidCmsgOnceV4 g then 1 else 0)%nat /\
  (count_v6 (logs g) <= if invalidCmsgOnceV6 g then 1 else 0)%nat.

Lemma count_v4_app (l1 l2 : list log_line) : count_v4 (l1 ++ l2) = (count_v4 l1 + count_v4 l2)%nat.
Proof. unfold count_v4. rewrite filter_app, length_app. reflexivity. Qed.

Lemma count_v6_app (l1 l2 : list log_line) : count_v6 (l1 ++ l2) = (count_v6 l1 + count_v6 l2)%nat.
Proof. unfold count_v6. rewrite filter_app, length_app. reflexivity. Qed.

Lemma ginv_onceV4 (b : slice) (g : globals) : ginv g -> ginv (onceV4_Do b g).
Proof.
  intros H. unfold onceV4_Do. destruct (invalidCmsgOnceV4 g) eqn:E; [exact H|].
  unfold ginv in *. rewrite E in H. simpl. rewrite count_v4_app, count_v6_app. simpl.
  destruct (invalidCmsgOnceV4 g), (invalidCmsgOnceV6 g); unfold count_v4, count_v6 in *; simpl in *; lia.
Qed.

Lemma ginv_onceV6 (b : slice) (g : globals) : ginv g -> ginv (onceV6_Do b g).
Proof.
  intros H. unfold onceV6_Do. destruct (invalidCmsgOnceV6 g) eqn:E; [exact H|].
  unfold ginv in *. rewrite E in H. simpl. rewrite count_v4_app, count_v6_app. simpl.
  destruct (invalidCmsgOnceV4 g), (invalidCmsgOnceV6 g); unfold count_v4, count_v6 in *; simpl in *; lia.
Qed.

Lemma ginv_getPacketBuffer (g : globals) : ginv g -> ginv (snd (getPacketBuffer g)).
Proof. unfold ginv. simpl. tauto. Qed.

Ltac split_results :=
  repeat match goal with
  | |- context [match ?x with _ => _ end] => destruct x eqn:?
  | |- context [if ?x then _ else _] => destruct x eqn:?
  end.

Lemma ginv_handle_ip g p hdr body : ginv g -> ginv (fst (handle_ip g p hdr body)).
Proof.
  intros H. unfold handle_ip. split_results; simpl; auto using ginv_onceV4.
Qed.

Lemma ginv_handle_ipv6 g p hdr body : ginv g -> ginv (fst (handle_ipv6 g p hdr body)).
Proof.
  intros H. unfold handle_ipv6. split_results; simpl; auto using ginv_onceV6.
Qed.

Lemma ginv_cmsg_loop (fuel : nat) :
  forall g p d, ginv g -> ginv (fst (cmsg_loop fuel g p d)).
Proof.
  induction fuel as [|fuel IH]; intros g p d H; simpl.
  - destruct (s_len d =? 0)%nat; exact H.
  - destruct (s_len d =? 0)%nat; [exact H|].
    destruct (snd (ParseOneSocketControlMessage d)) as [[[hdr body] rem]|e|m]; try exact H.
    pose proof (ginv_handle_ip g p hdr body H) as H1.
    destruct (handle_ip g p hdr body) as [g1 [p1|e|m]]; try exact H1.
    pose proof (ginv_handle_ipv6 g1 p1 hdr body H1) as H2.
    destruct (handle_ipv6 g1 p1 hdr body) as [g2 [p2|e|m]]; try exact H2.
    apply IH. exact H2.
Qed.

Lemma ginv_parse_slot g msg buf : ginv g -> ginv (fst (parse_slot g msg buf)).
Proof.
  intros H. unfold parse_slot.
  destruct (negb (NN msg <=? oobBufferSize)%nat); [exact H|].
  destruct (negb (N msg <=? _)%nat); [exact H|].
  apply ginv_cmsg_loop. exact H.
Qed.

Lemma ginv_refill (k : nat) :
  forall i c g c' g', ginv g -> refill k i c g = Ok (c', g') -> ginv g'.
Proof.
  induction k as [|k IH]; intros i c g c' g' H E; simpl in E.
  - injection E as _ <-. exact H.
  - destruct (negb (i <? batchSize)%nat); [discriminate|].
    destruct (negb (i <? mlen c)%nat); [discriminate|].
    eapply IH; [|exact E]. apply ginv_getPacketBuffer. exact H.
Qed.

Lemma ginv_next_slot c g rb :
  ginv g ->
  match next_slot c g rb with
  | SlotPanic _ => True
  | SlotEmpty _ g' _ => ginv g'
  | SlotOk _ g' _ _ _ => ginv g'
  end.
Proof.
  intros H. unfold next_slot.
  destruct (mlen c =? readPos c)%nat.
  - destruct (negb (batchSize <=? length (backing c))%nat); [exact I|].
    destruct (refill _ _ _ g) as [[c2 g2]|e|m] eqn:ER; try exact I.
    pose proof (ginv_refill _ _ _ _ _ _ H ER) as H2.
    repeat match goal with |- context [if ?b then _ else _] => destruct b end; simpl; auto.
  - repeat match goal with |- context [if ?b then _ else _] => destruct b end; simpl; auto.
Qed.

Lemma ginv_ReadPacket c g rb c' g' iss p e :
  ginv g -> ReadPacket c g rb = RDone c' g' iss p e -> ginv g'.
Proof.
  intros H E. unfold ReadPacket in E.
  pose proof (ginv_next_slot c g rb H) as HN.
  destruct (next_slot c g rb) as [m|c1 g1 err|c1 g1 i msg buf]; try discriminate.
  - injection E as _ <- _ _ _. exact HN.
  - pose proof (ginv_parse_slot g1 msg buf HN) as HP.
    destruct (parse_slot g1 msg buf) as [g2 [p2|e2|m2]]; try discriminate;
      injection E as _ <- _ _ _; exact HP.
Qed.

Lemma greachable_ginv g : greachable g -> ginv g.
Proof.
  induction 1 as [|c g rb c' g' iss p e Hr IH E].
  - unfold ginv, count_v4, count_v6. simpl. lia.
  - eapply ginv_ReadPacket; eassumption.
Qed.

(** C8: a packet-info record whose payload is not 8 bytes (IPv4) or 20 bytes
    (IPv6) is no error: the loop goes on with the remainder and the packet
    unchanged (its [info] is not set by that record), only the once-guarded
    diagnostic of its address family runs; and over any sequence of
    [ReadPacket] calls, on any connections, each family's diagnostic is
    logged at most once. *)
Theorem parse_chain_bad_pktinfo_logged_once :
  (forall g p b hdr body rem,
     snd (ParseOneSocketControlMessage b) = Ok (hdr, body, rem) ->
     Level hdr = IPPROTO_IP -> Type_ hdr = IP_PKTINFO -> s_len body <> 8%nat ->
     parse_chain g p b = parse_chain (onceV4_Do body g) p rem) /\
  (forall g p b hdr body rem,
     snd (ParseOneSocketControlMessage b) = Ok (hdr, body, rem) ->
     Level hdr = IPPROTO_IPV6 -> Type_ hdr = IPV6_PKTINFO -> s_len body <> 20%nat ->
     parse_chain g p b = parse_chain (onceV6_Do body g) p rem) /\
  (forall g, greachable g -> (count_v4 (logs g) <= 1)%nat /\ (count_v6 (logs g) <= 1)%nat).
Proof.
  split; [|split].
  - intros g p b hdr body rem EP HL HT HB.
    rewrite (parse_chain_step g p b hdr body rem EP).
    unfold handle_ip. rewrite HL, HT. cbn - [parseIPv4PktInfo].
    unfold parseIPv4PktInfo. replace (s_len body =? 8)%nat with false
      by (symmetry; apply Nat.eqb_neq; exact HB). simpl.
    rewrite handle_ipv6_other; [reflexivity|].
    rewrite HL. unfold IPPROTO_IP, IPPROTO_IPV6. intros [H _]. discriminate.
  - intros g p b hdr body rem EP HL HT HB.
    rewrite (parse_chain_step g p b hdr body rem EP).
    rewrite handle_ip_other.
    + unfold handle_ipv6. rewrite HL, HT. simpl.
      replace (s_len body =? 20)%nat with false
        by (symmetry; apply Nat.eqb_neq; exact HB). reflexivity.
    + rewrite HL. unfold IPPROTO_IP, IPPROTO_IPV6. intros [H _]. discriminate.
  - intros g Hg. destruct (greachable_ginv g Hg) as [H4 H6].
    destruct (invalidCmsgOnceV4 g), (invalidCmsgOnceV6 g); lia.
Qed.

(** An IPv4 packet-info record with a 7-byte payload. *)
Definition pktinfo4_short : list byte :=
  [x13; x00; x00; x00; x00; x00; x00; x00; x13; x00; x00; x00;
   xc0; xa8; x01; x01; x07; x00; x00; x00].

Lemma parse_chain_bad_pktinfo_logged_once_witness :
  exists hdr body rem,
    snd (ParseOneSocketControlMessage (slice_of pktinfo4_short (fun _ => x00)))
      = Ok (hdr, body, rem) /\
    Level hdr = IPPROTO_IP /\ Type_ hdr = IP_PKTINFO /\ s_len body = 7%nat /\
    parse_chain globals0 receivedPacket_zero (slice_of pktinfo4_short (fun _ => x00)) =
    parse_chain (onceV4_Do body globals0) receivedPacket_zero rem.
Proof.
  do 3 eexists. split; [reflexivity|].
  split; [reflexivity|]. split; [reflexivity|]. split; [reflexivity|].
  eapply (proj1 parse_chain_bad_pktinfo_logged_once); [reflexivity | reflexivity | reflexivity |].
  simpl. lia.
Defined.

(** ** The batch cursor *)

Definition conn_inv (c : oobConn) : Prop :=
  length (backing c) = batchSize /\ length (buffers c) = batchSize /\
  (readPos c <= mlen c)%nat /\ (mlen c <= batchSize)%nat.

(** Connections reachable from [newConn] by [ReadPacket] calls that return. *)
Inductive reachable : oobConn -> Prop :=
| r_new (caps : connCapabilities) : reachable (newConn_state caps)
| r_step (c : oobConn) (g : globals) (rb : batch_reply) (c' : oobConn) (g' : globals)
    (iss : bool) (p : receivedPacket) (e : option error) :
    reachable c -> ReadPacket c g rb = RDone c' g' iss p e -> reachable c'.

Lemma list_set_length {A} (l : list A) (i : nat) (v : A) : length (list_set l i v) = length l.
Proof.
  revert i. induction l as [|x l IH]; intros [|i]; simpl; try reflexivity.
  rewrite IH. reflexivity.
Qed.

Lemma kernel_fill_length (ms : list message) (ds : list delivery) :
  length (kernel_fill ms ds) = length ms.
Proof.
  revert ds. induction ms as [|m ms IH]; intros [|d ds]; simpl; try reflexivity.
  rewrite IH. reflexivity.
Qed.

Lemma refill_shape (k : nat) :
  forall i c g c' g', refill k i c g = Ok (c', g') ->
  length (backing c') = length (backing c) /\ length (buffers c') = length (buffers c) /\
  mlen c' = mlen c /\ readPos c' = readPos c /\ cap c' = cap c.
Proof.
  induction k as [|k IH]; intros i c g c' g' E; simpl in E.
  - injection E as <- _. repeat split.
  - destruct (negb (i <? batchSize)%nat); [discriminate|].
    destruct (negb (i <? mlen c)%nat); [discriminate|].
    destruct (IH _ _ _ _ _ E) as (H1 & H2 & H3 & H4 & H5).
    simpl in *. rewrite !list_set_length in *. repeat split; assumption.
Qed.

Lemma refill_no_err (k : nat) :
  forall i c g e, refill k i c g <> Err e.
Proof.
  induction k as [|k IH]; intros i c g e; simpl; [discriminate|].
  destruct (negb (i <? batchSize)%nat); [discriminate|].
  destruct (negb (i <? mlen c)%nat); [discriminate|]. apply IH.
Qed.

Lemma next_slot_inv (c : oobConn) (g : globals) (rb : batch_reply) :
  conn_inv c ->
  match next_slot c g rb with
  | SlotPanic _ => True
  | SlotEmpty c' _ _ => conn_inv c' /\ readPos c = mlen c
  | SlotOk c' _ iss msg buf =>
      conn_inv c' /\ (iss = true <-> readPos c = mlen c) /\
      (1 <= readPos c')%nat /\
      msg = nth (readPos c' - 1) (backing c') message0 /\
      buf = nth (readPos c' - 1) (buffers c') None
  end.
Proof.
  intros (Hb & Hf & Hr & Hm). unfold next_slot.
  destruct (mlen c =? readPos c)%nat eqn:E.
  - apply Nat.eqb_eq in E.
    destruct (negb (batchSize <=? length (backing c))%nat); [exact I|].
    destruct (refill _ _ _ g) as [[c2 g2]|e|m] eqn:ER; try exact I.
    destruct (refill_shape _ _ _ _ _ _ ER) as (H1 & H2 & H3 & H4 & H5). simpl in *.
    destruct ((rb_n rb =? 0)%nat || _).
    + split; [|lia]. unfold conn_inv. simpl. rewrite kernel_fill_length. lia.
    + destruct (negb (rb_n rb <=? length (kernel_fill (backing c2) (rb_fill rb)))%nat) eqn:En;
        [exact I|].
      simpl. rewrite kernel_fill_length in En.
      apply negb_false_iff, Nat.leb_le in En.
      destruct (negb (0 <? rb_n rb)%nat) eqn:E0; [exact I|].
      apply negb_false_iff, Nat.ltb_lt in E0.
      unfold conn_inv. simpl. rewrite kernel_fill_length. unfold batchSize in *.
      repeat split; try lia; try reflexivity.
  - apply Nat.eqb_neq in E.
    destruct (negb (readPos c <? mlen c)%nat) eqn:E1; [exact I|].
    destruct (negb (readPos c <? batchSize)%nat) eqn:E2; [exact I|].
    apply negb_false_iff, Nat.ltb_lt in E1.
    assert (Hrp : ((readPos c + 1) mod 256 = readPos c + 1)%nat)
      by (apply Nat.mod_small; unfold batchSize in Hm; lia).
    unfold conn_inv. cbn [readPos backing mlen buffers cap]. rewrite Hrp.
    replace (readPos c + 1 - 1)%nat with (readPos c) by lia.
    repeat split; try lia; congruence.
Qed.

Lemma ReadPacket_inv (c : oobConn) (g : globals) (rb : batch_reply) c' g' iss p e :
  conn_inv c -> ReadPacket c g rb = RDone c' g' iss p e ->
  conn_inv c' /\ (iss = true <-> readPos c = mlen c).
Proof.
  intros H E. pose proof (next_slot_inv c g rb H) as HN. unfold ReadPacket in E.
  destruct (next_slot c g rb) as [m|c1 g1 err|c1 g1 i msg buf]; try discriminate.
  - injection E as <- _ <- _ _. destruct HN as [HN1 HN2]. split; [exact HN1|tauto].
  - destruct HN as (HN1 & HN2 & _).
    destruct (parse_slot g1 msg buf) as [g2 [p2|e2|m2]]; try discriminate;
      injection E as <- _ <- _ _; split; assumption.
Qed.

Lemma reachable_inv (c : oobConn) : reachable c -> conn_inv c.
Proof.
  induction 1 as [caps|c g rb c' g' iss p e Hr IH E].
  - unfold conn_inv. simpl. repeat split; auto.
  - exact (proj1 (ReadPacket_inv c g rb c' g' iss p e IH E)).
Qed.

Lemma next_slot_has_data (c : oobConn) (g : globals) (rb : batch_reply) :
  conn_inv c -> (readPos c < mlen c)%nat ->
  next_slot c g rb =
  SlotOk (mkConn (backing c) (mlen c) (S (readPos c)) (buffers c) (cap c)) g false
         (nth (readPos c) (backing c) message0) (nth (readPos c) (buffers c) None).
Proof.
  intros (Hb & Hf & Hr & Hm) Hlt. unfold next_slot.
  replace (mlen c =? readPos c)%nat with false by (symmetry; apply Nat.eqb_neq; lia).
  replace (negb (readPos c <? mlen c)%nat) with false
    by (symmetry; apply negb_false_iff, Nat.ltb_lt; lia).
  replace (negb (readPos c <? batchSize)%nat) with false
    by (symmetry; apply negb_false_iff, Nat.ltb_lt; lia).
  rewrite Nat.mod_small by (unfold batchSize in Hm; lia).
  rewrite Nat.add_1_r. reflexivity.
Qed.

(** A first batch of one datagram carrying the given control messages. *)
Definition mem_of (l : list byte) : nat -> byte := fun k => nth k l x00.

Definition one_datagram (oob : list byte) : batch_reply :=
  mkReply 1 None [mkDelivery (UDPAddr [10; 0; 0; 1] 443) 100 (mem_of oob) (length oob)].

Definition caps_all : connCapabilities := mkCaps true true true.

(** ** Claims on [ReadPacket] *)

(** C6: on every connection reachable from [newConn], each [ReadPacket] call
    that returns starts and ends with [0 <= readPos <= len(messages)], and it
    calls [ReadBatch] exactly when [readPos = len(messages)] on entry. *)
Theorem ReadPacket_cursor_invariant (c : oobConn) (g : globals) (rb : batch_reply)
    (c' : oobConn) (g' : globals) (iss : bool) (p : receivedPacket) (e : option error) :
  reachable c -> ReadPacket c g rb = RDone c' g' iss p e ->
  ((0 <= readPos c <= mlen c)%nat /\ (0 <= readPos c' <= mlen c')%nat) /\
  (iss = true <-> readPos c = mlen c).
Proof.
  intros Hr E.
  pose proof (reachable_inv c Hr) as Hi.
  destruct (ReadPacket_inv c g rb c' g' iss p e Hi E) as [Hi' Hiss].
  destruct Hi as (_ & _ & H1 & _). destruct Hi' as (_ & _ & H2 & _).
  split; [split; lia | exact Hiss].
Qed.

Lemma ReadPacket_cursor_invariant_witness :
  exists c' g' iss p e,
    ReadPacket (newConn_state caps_all) globals0 (one_datagram []) = RDone c' g' iss p e /\
    (((0 <= readPos (newConn_state caps_all) <= mlen (newConn_state caps_all))%nat /\
      (0 <= readPos c' <= mlen c')%nat) /\
     (iss = true <-> readPos (newConn_state caps_all) = mlen (newConn_state caps_all))).
Proof.
  do 5 eexists.
  match goal with |- ?A /\ _ => assert (H : A) by reflexivity end.
  split; [exact H|].
  exact (ReadPacket_cursor_invariant _ _ _ _ _ _ _ _ (r_new caps_all) H).
Defined.

(** C7: when the slot [ReadPacket] takes holds a malformed control-message
    chain, the call returns [EINVAL] with the cursor already past that slot
    (the same connection state as a successful read of it), the connection
    is still a reachable, well-formed one, and the next call goes on to the
    next slot without receiving, or, when the batch is used up, receives a
    new batch. *)
Theorem ReadPacket_malformed_chain_recovers (c : oobConn) (g : globals) (rb : batch_reply)
    (c1 : oobConn) (g1 : globals) (iss : bool) (msg : message) (buf : option nat) :
  reachable c ->
  next_slot c g rb = SlotOk c1 g1 iss msg buf ->
  snd (parse_slot g1 msg buf) = Err EINVAL ->
  ReadPacket c g rb = RDone c1 (fst (parse_slot g1 msg buf)) iss receivedPacket_zero (Some EINVAL) /\
  reachable c1 /\
  (1 <= readPos c1 <= mlen c1)%nat /\
  msg = nth (readPos c1 - 1) (backing c1) message0 /\
  (forall g' rb', (readPos c1 < mlen c1)%nat ->
     next_slot c1 g' rb' =
     SlotOk (mkConn (backing c1) (mlen c1) (S (readPos c1)) (buffers c1) (cap c1)) g' false
            (nth (readPos c1) (backing c1) message0) (nth (readPos c1) (buffers c1) None)) /\
  (forall g' rb', readPos c1 = mlen c1 ->
     match next_slot c1 g' rb' with
     | SlotOk _ _ iss' _ _ => iss' = true
     | _ => True
     end).
Proof.
  intros Hr EN EP.
  assert (ER : ReadPacket c g rb =
               RDone c1 (fst (parse_slot g1 msg buf)) iss receivedPacket_zero (Some EINVAL)).
  { unfold ReadPacket. rewrite EN.
    destruct (parse_slot g1 msg buf) as [g2 r]. simpl in EP. subst r. reflexivity. }
  assert (Hr1 : reachable c1) by (eapply r_step; [exact Hr | exact ER]).
  pose proof (next_slot_inv c g rb (reachable_inv c Hr)) as HN. rewrite EN in HN.
  destruct HN as (Hi1 & _ & Hpos & Hmsg & _).
  split; [exact ER|]. split; [exact Hr1|].
  split; [destruct Hi1 as (_ & _ & ? & _); lia|]. split; [exact Hmsg|]. split.
  - intros g' rb' Hlt. apply next_slot_has_data; assumption.
  - intros g' rb' Heq. pose proof (next_slot_inv c1 g' rb' Hi1) as HN'.
    destruct (next_slot c1 g' rb'); try exact I. apply (proj1 (proj2 HN')). exact Heq.
Qed.

(** A datagram whose control data declares a 255-byte record in 4 bytes. *)
Definition bad_chain : list byte := [xff; x00; x00; x00].

Lemma ReadPacket_malformed_chain_recovers_witness :
  exists c1 g1 iss msg buf,
    next_slot (newConn_state caps_all) globals0 (one_datagram bad_chain) = SlotOk c1 g1 iss msg buf /\
    snd (parse_slot g1 msg buf) = Err EINVAL /\
    ReadPacket (newConn_state caps_all) globals0 (one_datagram bad_chain) =
      RDone c1 (fst (parse_slot g1 msg buf)) iss receivedPacket_zero (Some EINVAL).
Proof.
  do 5 eexists.
  match goal with |- ?A /\ ?B /\ _ => assert (H1 : A) by reflexivity; assert (H2 : B) by reflexivity end.
  split; [exact H1|]. split; [exact H2|].
  exact (proj1 (ReadPacket_malformed_chain_recovers _ _ _ _ _ _ _ _ (r_new caps_all) H1 H2)).
Defined.

(** [ReadBatch] fails ([WSAEWOULDBLOCK]) and delivers nothing. *)
Definition failed_batch : batch_reply := mkReply 0 (Some (SysErr 10035)) [].

(** C1: on a new connection ([readPos = len(messages)], all slots consumed),
    a failing [ReadBatch] makes [ReadPacket] return its error, but the call
    has already set [readPos = 0] and [messages] back to [batchSize] entries;
    so the next call, whatever [ReadBatch] would answer, does not receive
    and returns slot 0 of the failed batch as a packet (a fresh pool buffer
    with the stale [N = 0]). *)
Theorem ReadPacket_failed_batch_leaves_stale_slot (caps : connCapabilities) :
  match ReadPacket (newConn_state caps) globals0 failed_batch with
  | RDone c1 g1 iss _ err =>
      readPos (newConn_state caps) = mlen (newConn_state caps) /\
      iss = true /\ err = Some (SysErr 10035) /\
      readPos c1 = 0%nat /\ mlen c1 = 1%nat /\
      (forall rb', match ReadPacket c1 g1 rb' with
                   | RDone _ _ iss' p' err' =>
                       iss' = false /\ err' = None /\ data p' = (Some 1%nat, 0%nat)
                   | RPanic _ => False
                   end)
  | RPanic _ => False
  end.
Proof.
  cbn. repeat split; intros; cbn; repeat split.
Qed.

(** [parseIPv4PktInfo] decodes [ifIndex] from the same four bytes as the
    address, bytes 0-3 of the payload. *)
Lemma parseIPv4PktInfo_ifIndex_from_addr_bytes (body : slice) :
  s_len body = 8%nat ->
  parseIPv4PktInfo body = Ok (Addr4 (slice_bytes body 0 4), snd (load_u32 body 0), true).
Proof.
  intros H. unfold parseIPv4PktInfo, LittleEndian_Uint32. rewrite H. reflexivity.
Qed.

(** An [in_pktinfo] record: destination 192.168.1.1, interface index 7. *)
Definition pktinfo4_if7 : list byte :=
  [x14; x00; x00; x00; x00; x00; x00; x00; x13; x00; x00; x00;
   xc0; xa8; x01; x01; x07; x00; x00; x00].

(** C4: for the 8-byte [in_pktinfo] payload [c0 a8 01 01 07 00 00 00]
    ([ipi_addr] 192.168.1.1, [ipi_ifindex] 7), [ReadPacket] sets the address
    from bytes 0-3 but the interface index to 16885952 ([0x0101a8c0], bytes
    0-3 again), not 7 (bytes 4-7). *)
Theorem ReadPacket_pktinfo4_ifIndex :
  match ReadPacket (newConn_state caps_all) globals0 (one_datagram pktinfo4_if7) with
  | RDone _ _ _ p None =>
      info p = mkPacketInfo (Addr4 [192; 168; 1; 1]) 16885952 /\
      bz (nth 16 pktinfo4_if7 x00) + 256 * bz (nth 17 pktinfo4_if7 x00)
      + 65536 * bz (nth 18 pktinfo4_if7 x00) + 16777216 * bz (nth 19 pktinfo4_if7 x00) = 7
  | _ => False
  end.
Proof. vm_compute. split; reflexivity. Qed.

(** ** Claims on [WritePacket] *)

Definition is_udp (a : net_Addr) : bool :=
  match a with UDPAddr _ _ => true | _ => false end.

Definition send_dst (e : send_event) : net_Addr := match e with WriteMsgUDP _ _ d => d end.

(** C5: [gsoSize > 0] on a connection without GSO, or an ECN mark on a
    connection without ECN, makes [WritePacket] panic before any send. *)
Theorem WritePacket_capability_gating (c : oobConn) (b : list byte) (addr : net_Addr)
    (packetInfoOOB : list byte) (gsoSize : Z) (ecn : ECN) (reply : Z * option error) :
  (0 < gsoSize /\ GSO (capabilities c) = false) \/
  (ecn <> ECNUnsupported /\ ECN_ (capabilities c) = false) ->
  exists msg, WritePacket c b addr packetInfoOOB gsoSize ecn reply = ([], WPanic msg).
Proof.
  intros H. unfold WritePacket.
  destruct H as [[Hg Hc] | [He Hc]].
  - apply Z.ltb_lt in Hg. rewrite Hg, Hc. eexists. reflexivity.
  - assert (Hn : ecn_eqb ecn ECNUnsupported = false) by (destruct ecn; simpl; congruence).
    rewrite Hn, Hc. simpl.
    destruct (0 <? gsoSize); [destruct (GSO (capabilities c))|]; eexists; reflexivity.
Qed.

Lemma WritePacket_capability_gating_witness :
  ((0 < 1200 /\ GSO (capabilities (newConn_state (mkCaps true false true))) = false) \/
   (ECNUnsupported <> ECNUnsupported /\
    ECN_ (capabilities (newConn_state (mkCaps true false true))) = false)) /\
  exists msg, WritePacket (newConn_state (mkCaps true false true)) [x01] (UDPAddr [1; 2; 3; 4] 443)
                [] 1200 ECNUnsupported (1, None) = ([], WPanic msg).
Proof.
  assert (H : (0 < 1200 /\ GSO (capabilities (newConn_state (mkCaps true false true))) = false) \/
              (ECNUnsupported <> ECNUnsupported /\
               ECN_ (capabilities (newConn_state (mkCaps true false true))) = false))
    by (left; split; [lia | reflexivity]).
  split; [exact H|]. exact (WritePacket_capability_gating _ _ _ _ _ _ _ H).
Defined.

(** C10, as stated, fails: with a non-UDP destination and [gsoSize > 0] on a
    connection without GSO, the panic is the GSO check's, not the type
    assertion's. *)
Lemma WritePacket_non_udp_gso_panic_first :
  WritePacket (newConn_state (mkCaps true false true)) [x01] (OtherAddr "unix") [] 1200
    ECNUnsupported (1, None) = ([], WPanic "GSO disabled") /\
  "GSO disabled"%string <> assertion_panic.
Proof. split; [reflexivity | discriminate]. Qed.

(** C10, amended: with a destination that is not a [*net.UDPAddr],
    [WritePacket] never sends and never returns: it panics, through the
    unchecked type assertion whenever the capability checks pass (otherwise
    through the capability check that fails first); and every send it does
    make goes to a UDP address. *)
Theorem WritePacket_non_udp_panics (c : oobConn) (b : list byte) (addr : net_Addr)
    (packetInfoOOB : list byte) (gsoSize : Z) (ecn : ECN) (reply : Z * option error) :
  (is_udp addr = false ->
   fst (WritePacket c b addr packetInfoOOB gsoSize ecn reply) = [] /\
   (exists msg, snd (WritePacket c b addr packetInfoOOB gsoSize ecn reply) = WPanic msg) /\
   ((0 < gsoSize -> GSO (capabilities c) = true) ->
    (ecn <> ECNUnsupported -> ECN_ (capabilities c) = true) ->
    snd (WritePacket c b addr packetInfoOOB gsoSize ecn reply) = WPanic assertion_panic)) /\
  (forall ev, In ev (fst (WritePacket c b addr packetInfoOOB gsoSize ecn reply)) ->
   is_udp (send_dst ev) = true).
Proof.
  unfold WritePacket. split.
  - intros Hu. destruct addr as [|ip port|net]; [| discriminate |];
    destruct (0 <? gsoSize) eqn:Eg; destruct (GSO (capabilities c)) eqn:EG;
    destruct (ecn_eqb ecn ECNUnsupported) eqn:Ee; destruct (ECN_ (capabilities c)) eqn:EE;
    simpl; (split; [reflexivity|]); (split; [eexists; reflexivity|]);
    intros HG HE; try reflexivity;
    try (apply Z.ltb_lt in Eg; specialize (HG Eg); congruence);
    (assert (ecn <> ECNUnsupported) by (destruct ecn; simpl in Ee; congruence);
     specialize (HE H); congruence).
  - intros ev. cbv zeta.
    lazymatch goal with
    | |- context [match ?s with Panic _ => _ | Err _ => _ | Ok _ => _ end] => destruct s
    end; simpl; try tauto.
    destruct addr; simpl; [tauto | intros [<- | []]; reflexivity | tauto].
Qed.

Lemma WritePacket_non_udp_panics_witness :
  is_udp (OtherAddr "unix") = false /\
  snd (WritePacket (newConn_state caps_all) [x01] (OtherAddr "unix") [] 1200 ECT0 (1, None))
    = WPanic assertion_panic.
Proof.
  split; [reflexivity|].
  apply (proj1 (WritePacket_non_udp_panics (newConn_state caps_all) [x01] (OtherAddr "unix") [] 1200
           ECT0 (1, None)) eq_refl); intros; reflexivity.
Defined.

(** ** Further properties of the control-message codec *)

Lemma Len_load_Cmsghdr (b : slice) : Len (snd (load_Cmsghdr b)) = snd (load_u32 b 0).
Proof. reflexivity. Qed.

(** [ParseOneSocketControlMessage] panics only on an empty buffer. On a
    non-empty one it refuses with [EINVAL], or returns the header, the body
    [b[12:Len]] with [12 <= Len <= len(b)], and a remainder strictly shorter
    than [b]: [b[align4(Len):]] when that offset is inside [b], empty
    otherwise. *)
Theorem ParseOne_outcomes (b : slice) :
  ((s_len b = 0)%nat -> exists m, snd (ParseOneSocketControlMessage b) = Panic m) /\
  ((0 < s_len b)%nat ->
   snd (ParseOneSocketControlMessage b) = Err EINVAL \/
   exists hdr body rem,
     snd (ParseOneSocketControlMessage b) = Ok (hdr, body, rem) /\
     12 <= Len hdr <= Z.of_nat (s_len b) /\
     s_len body = (Z.to_nat (Len hdr) - 12)%nat /\
     (forall k, s_mem body k = s_mem b (12 + k)) /\
     (s_len rem < s_len b)%nat /\
     (cmsgDataAlign (Len hdr) < Z.of_nat (s_len b) ->
      s_len rem = (s_len b - Z.to_nat (cmsgDataAlign (Len hdr)))%nat /\
      forall k, s_mem rem k = s_mem b (Z.to_nat (cmsgDataAlign (Len hdr)) + k)) /\
     (Z.of_nat (s_len b) <= cmsgDataAlign (Len hdr) -> s_len rem = 0%nat)).
Proof.
  split.
  - intros H. rewrite ParseOne_eq, H. eexists. reflexivity.
  - intros H. destruct (ParseOneSocketControlMessage b) as [t r] eqn:EP.
    pose proof (f_equal snd EP) as ES. cbn [snd] in ES. rewrite ParseOne_eq in ES.
    destruct (s_len b =? 0)%nat eqn:E0; [apply Nat.eqb_eq in E0; lia|].
    cbv zeta in ES.
    destruct ((snd (load_u32 b 0) <? cmsgSize) || (Z.of_nat (s_len b) <? snd (load_u32 b 0)))
      eqn:EC; [left; exact (eq_sym ES)|right].
    subst r. do 3 eexists. split; [reflexivity|].
    rewrite Len_load_Cmsghdr.
    apply orb_false_iff in EC as [E1 E2]. apply Z.ltb_ge in E1. apply Z.ltb_ge in E2.
    unfold cmsgSize in E1.
    pose proof (load_u32_range b 0) as HR.
    pose proof (cmsgDataAlign_ge _ HR) as HA.
    remember (snd (load_u32 b 0)) as hlen eqn:Eh. clear Eh.
    assert (Hi : Z.of_nat (Z.to_nat (cmsgDataAlign hlen)) = cmsgDataAlign hlen)
      by (apply Z2Nat.id; lia).
    split; [lia|]. split; [reflexivity|]. split; [intros k; reflexivity|].
    destruct (cmsgDataAlign hlen <? Z.of_nat (s_len b)) eqn:EA.
    + apply Z.ltb_lt in EA. cbn [s_len s_mem skip].
      split; [lia|]. split; [intros _; split; [reflexivity | intros k; reflexivity]|].
      intros H'. lia.
    + apply Z.ltb_ge in EA. cbn [s_len nil_slice].
      split; [lia|]. split; [intros H'; lia|]. intros _; reflexivity.
Qed.

(** [cmsgDataAlign] rounds up to the next multiple of 4, in [uintptr]
    arithmetic: for [x <= 2^64 - 4] it gives the least multiple of 4 that is
    [>= x]; the three largest [uintptr] values wrap around to 0. *)
Theorem cmsgDataAlign_rounding (x : Z) :
  0 <= x < 2 ^ 64 ->
  (x <= 2 ^ 64 - 4 -> cmsgDataAlign x mod 4 = 0 /\ x <= cmsgDataAlign x < x + 4) /\
  (2 ^ 64 - 4 < x -> cmsgDataAlign x = 0).
Proof.
  intros H. unfold cmsgDataAlign, uintptr_wrap, uint32Align.
  replace (x + 4 - 1) with (x + 3) by lia. replace (4 - 1) with 3 by lia.
  rewrite land_lnot3.
  pose proof (Z.div_mod (x + 3) 4) as HD. pose proof (Z.mod_pos_bound (x + 3) 4) as HM.
  set (q := (x + 3) / 4) in *. set (r := (x + 3) mod 4) in *.
  change (2 ^ 64) with 18446744073709551616 in *.
  split.
  - intros Hx. rewrite (Z.mod_small (q * 4)) by lia.
    split; [rewrite Z.mod_mul; lia | lia].
  - intros Hx. assert (Hq : q = 4611686018427387904) by lia. rewrite Hq. reflexivity.
Qed.

Lemma cmsgDataAlign_rounding_witness :
  (0 <= 2 ^ 64 - 1 < 2 ^ 64) /\ cmsgDataAlign (2 ^ 64 - 1) = 0.
Proof.
  assert (H : 0 <= 2 ^ 64 - 1 < 2 ^ 64) by lia.
  split; [exact H|].
  apply (proj2 (cmsgDataAlign_rounding (2 ^ 64 - 1) H)). lia.
Defined.

(** For every payload length below [2^31], [cmsgLen n = 12 + n] and
    [cmsgSpace n = 12 + align4(n)]: a multiple of 4 that is at least
    [cmsgLen n] and less than [cmsgLen n + 4]. *)
Theorem cmsgLen_cmsgSpace (n : Z) :
  0 <= n < 2 ^ 31 ->
  cmsgLen n = 12 + n /\ cmsgSpace n = 12 + (n + 3) / 4 * 4 /\
  cmsgSpace n mod 4 = 0 /\ cmsgLen n <= cmsgSpace n < cmsgLen n + 4.
Proof.
  intros H.
  assert (E31 : 2 ^ 31 = 2147483648) by reflexivity.
  assert (E32 : 2 ^ 32 = 4294967296) by reflexivity.
  pose proof (Z.div_mod (n + 3) 4) as HD. pose proof (Z.mod_pos_bound (n + 3) 4) as HM.
  assert (HL : cmsgLen n = 12 + n).
  { unfold cmsgLen, uintptr_wrap. change (cmsgDataAlign cmsgSize) with 12.
    apply Z.mod_small. lia. }
  assert (HH : cmsgHdrAlign n = (n + 3) / 4 * 4).
  { unfold cmsgHdrAlign, uintptr_wrap, cmsgAlign.
    replace (n + 4 - 1) with (n + 3) by lia. replace (4 - 1) with 3 by lia.
    rewrite land_lnot3. apply Z.mod_small. lia. }
  assert (HS : cmsgSpace n = 12 + (n + 3) / 4 * 4).
  { unfold cmsgSpace, cmsgSize. rewrite HH, cmsgDataAlign_eq by lia.
    replace (12 + (n + 3) / 4 * 4 + 3) with (((n + 3) / 4 + 3) * 4 + 3) by lia.
    rewrite Z.div_add_l by lia. change (3 / 4) with 0. lia. }
  rewrite HL, HS. split; [reflexivity|]. split; [reflexivity|].
  split; [|lia].
  replace (12 + (n + 3) / 4 * 4) with ((3 + (n + 3) / 4) * 4) by lia.
  apply Z.mod_mul. lia.
Qed.

Lemma cmsgLen_cmsgSpace_witness :
  (0 <= 2 < 2 ^ 31) /\ cmsgSpace 2 = 16.
Proof.
  assert (H : 0 <= 2 < 2 ^ 31) by lia.
  split; [exact H|].
  rewrite (proj1 (proj2 (cmsgLen_cmsgSpace 2 H))). reflexivity.
Defined.

(** ** Appending control messages *)

Lemma appendUDPSegmentSizeMsg_cons (x : byte) (b : list byte) (size : Z) :
  appendUDPSegmentSizeMsg (x :: b) size = x :: appendUDPSegmentSizeMsg b size.
Proof. reflexivity. Qed.

Lemma appendUDPSegmentSizeMsg_app (b : list byte) (size : Z) :
  appendUDPSegmentSizeMsg b size = b ++ appendUDPSegmentSizeMsg [] size.
Proof.
  induction b as [|x b IH]; [reflexivity|].
  rewrite appendUDPSegmentSizeMsg_cons, IH. reflexivity.
Qed.

Lemma appendECNMsg_cons (level type_ : Z) (x : byte) (b : list byte) (e : ECN) :
  appendECNMsg level type_ (x :: b) e =
  match appendECNMsg level type_ b e with
  | Ok r => Ok (x :: r) | Err er => Err er | Panic m => Panic m
  end.
Proof. unfold appendECNMsg. destruct (ToHeaderBits e); reflexivity. Qed.

Lemma appendECNMsg_app (level type_ : Z) (b : list byte) (e : ECN) :
  appendECNMsg level type_ b e =
  match appendECNMsg level type_ [] e with
  | Ok r => Ok (b ++ r) | Err er => Err er | Panic m => Panic m
  end.
Proof.
  induction b as [|x b IH].
  - destruct (appendECNMsg level type_ [] e); reflexivity.
  - rewrite appendECNMsg_cons, IH.
    destruct (appendECNMsg level type_ [] e); reflexivity.
Qed.

Lemma appendECNMsg_ok (level type_ : Z) (e : ECN) :
  e <> ECNUnsupported -> exists r, appendECNMsg level type_ [] e = Ok r.
Proof. destruct e; intros H; [congruence | eexists; reflexivity ..]. Qed.

Lemma ecn_eqb_true (a b : ECN) : ecn_eqb a b = true <-> a = b.
Proof. destruct a, b; simpl; split; congruence. Qed.

(** [appendUDPSegmentSizeMsg b size] keeps [b] and appends one 16-byte
    record whatever [b] is: [Len = 14], level [IPPROTO_UDP] (17), type
    [UDP_SEND_MSG_SIZE] (2), the low 16 bits of [size] little-endian, and two
    zero bytes of padding. *)
Theorem appendUDPSegmentSizeMsg_appends_record (b : list byte) (size : Z) :
  appendUDPSegmentSizeMsg b size =
  b ++ [x0e; x00; x00; x00; x11; x00; x00; x00; x02; x00; x00; x00;
        zb size; zb (size / 256); x00; x00].
Proof. rewrite appendUDPSegmentSizeMsg_app. reflexivity. Qed.

(** [appendIPv4ECNMsg b e] and [appendIPv6ECNMsg b e] keep [b] and append
    one 16-byte record: [Len = 16], level [IPPROTO_IP] (0) with type [IP_TOS]
    (3), resp. level [IPPROTO_IPV6] (41) with type [IPV6_RECVTCLASS] (40), and
    a payload whose first byte is the ECN bits of [e] followed by three zero
    bytes. For [ECNUnsupported] both panic. *)
Theorem appendECNMsg_appends_record (b : list byte) (e : ECN) :
  (e = ECNUnsupported ->
   appendIPv4ECNMsg b e = Panic "ECN unsupported" /\
   appendIPv6ECNMsg b e = Panic "ECN unsupported") /\
  (forall bits, ToHeaderBits e = Ok bits ->
   appendIPv4ECNMsg b e =
     Ok (b ++ [x10; x00; x00; x00; x00; x00; x00; x00; x03; x00; x00; x00;
               zb bits; x00; x00; x00]) /\
   appendIPv6ECNMsg b e =
     Ok (b ++ [x10; x00; x00; x00; x29; x00; x00; x00; x28; x00; x00; x00;
               zb bits; x00; x00; x00])).
Proof.
  unfold appendIPv4ECNMsg, appendIPv6ECNMsg.
  rewrite (appendECNMsg_app IPPROTO_IP), (appendECNMsg_app IPPROTO_IPV6).
  split.
  - intros ->. split; reflexivity.
  - intros bits Hb. destruct e; simpl in Hb; try discriminate;
      injection Hb as <-; split; reflexivity.
Qed.

(** ** What [WritePacket] sends *)

Lemma WritePacket_udp_sent (c : oobConn) (b : list byte) (ip : list Z) (port : Z)
    (packetInfoOOB : list byte) (gsoSize : Z) (ecn : ECN) (reply : Z * option error) :
  (0 < gsoSize -> GSO (capabilities c) = true) ->
  (ecn <> ECNUnsupported -> ECN_ (capabilities c) = true) ->
  exists ecnrec,
    WritePacket c b (UDPAddr ip port) packetInfoOOB gsoSize ecn reply =
      ([WriteMsgUDP b (packetInfoOOB ++
                       (if 0 <? gsoSize then appendUDPSegmentSizeMsg [] gsoSize else []) ++
                       ecnrec) (UDPAddr ip port)],
       WReturned (fst reply) (snd reply)) /\
    (ecn = ECNUnsupported -> ecnrec = []) /\
    (ecn <> ECNUnsupported ->
     (if To4_ok ip then appendIPv4ECNMsg [] ecn else appendIPv6ECNMsg [] ecn) = Ok ecnrec).
Proof.
  intros HG HE. unfold WritePacket. cbv zeta.
  assert (Hstep1 : (if 0 <? gsoSize then
                      if negb (GSO (capabilities c)) then Panic "GSO disabled"
                      else Ok (appendUDPSegmentSizeMsg packetInfoOOB gsoSize)
                    else Ok packetInfoOOB) =
                   Ok (packetInfoOOB ++
                       (if 0 <? gsoSize then appendUDPSegmentSizeMsg [] gsoSize else []))).
  { destruct (0 <? gsoSize) eqn:Eg.
    - rewrite (HG (proj1 (Z.ltb_lt _ _) Eg)). cbn [negb].
      rewrite appendUDPSegmentSizeMsg_app. reflexivity.
    - rewrite app_nil_r. reflexivity. }
  rewrite Hstep1.
  set (oob1 := packetInfoOOB ++ (if 0 <? gsoSize then appendUDPSegmentSizeMsg [] gsoSize else [])).
  destruct (ecn_eqb ecn ECNUnsupported) eqn:Ee.
  - apply ecn_eqb_true in Ee. exists []. cbn [negb].
    rewrite app_assoc, app_nil_r. fold oob1.
    split; [reflexivity|]. split; [reflexivity | congruence].
  - assert (Hne : ecn <> ECNUnsupported) by (intros H; apply ecn_eqb_true in H; congruence).
    rewrite (HE Hne). cbn [negb].
    destruct (To4_ok ip).
    + destruct (appendECNMsg_ok IPPROTO_IP IP_TOS ecn Hne) as [r Er].
      exists r. unfold appendIPv4ECNMsg. rewrite appendECNMsg_app, Er.
      rewrite app_assoc. fold oob1.
      split; [reflexivity|]. split; [congruence | intros _; reflexivity].
    + destruct (appendECNMsg_ok IPPROTO_IPV6 IPV6_RECVTCLASS ecn Hne) as [r Er].
      exists r. unfold appendIPv6ECNMsg. rewrite appendECNMsg_app, Er.
      rewrite app_assoc. fold oob1.
      split; [reflexivity|]. split; [congruence | intros _; reflexivity].
Qed.

(** When the capability preconditions hold, [WritePacket] to a UDP address
    makes exactly one [WriteMsgUDP] call and returns its answer; the control
    data it passes is [packetInfoOOB], then the segment-size record when
    [gsoSize > 0], then (unless [ecn] is [ECNUnsupported]) the ECN record of
    the address family ([IP_TOS] when [To4() != nil], [IPV6_RECVTCLASS]
    otherwise). *)
Theorem WritePacket_sent_control_data (c : oobConn) (b : list byte) (ip : list Z) (port : Z)
    (packetInfoOOB : list byte) (gsoSize : Z) (ecn : ECN) (reply : Z * option error) :
  (0 < gsoSize -> GSO (capabilities c) = true) ->
  (ecn <> ECNUnsupported -> ECN_ (capabilities c) = true) ->
  exists ecnrec,
    WritePacket c b (UDPAddr ip port) packetInfoOOB gsoSize ecn reply =
      ([WriteMsgUDP b (packetInfoOOB ++
                       (if 0 <? gsoSize then appendUDPSegmentSizeMsg [] gsoSize else []) ++
                       ecnrec) (UDPAddr ip port)],
       WReturned (fst reply) (snd reply)) /\
    (ecn = ECNUnsupported -> ecnrec = []) /\
    (ecn <> ECNUnsupported ->
     (if To4_ok ip then appendIPv4ECNMsg [] ecn else appendIPv6ECNMsg [] ecn) = Ok ecnrec).
Proof. exact (WritePacket_udp_sent c b ip port packetInfoOOB gsoSize ecn reply). Qed.

Lemma WritePacket_sent_control_data_witness :
  ((0 < 1200 -> GSO (capabilities (newConn_state caps_all)) = true) /\
   (ECT0 <> ECNUnsupported -> ECN_ (capabilities (newConn_state caps_all)) = true)) /\
  exists ecnrec,
    WritePacket (newConn_state caps_all) [x01] (UDPAddr [10; 0; 0; 1] 443) [] 1200 ECT0 (1, None) =
      ([WriteMsgUDP [x01] ([] ++ (if 0 <? 1200 then appendUDPSegmentSizeMsg [] 1200 else []) ++
                           ecnrec) (UDPAddr [10; 0; 0; 1] 443)], WReturned 1 None) /\
    (ECT0 = ECNUnsupported -> ecnrec = []) /\
    (ECT0 <> ECNUnsupported ->
     (if To4_ok [10; 0; 0; 1] then appendIPv4ECNMsg [] ECT0 else appendIPv6ECNMsg [] ECT0)
       = Ok ecnrec).
Proof.
  assert (H1 : 0 < 1200 -> GSO (capabilities (newConn_state caps_all)) = true)
    by (intros; reflexivity).
  assert (H2 : ECT0 <> ECNUnsupported -> ECN_ (capabilities (newConn_state caps_all)) = true)
    by (intros; reflexivity).
  split; [split; assumption|].
  exact (WritePacket_sent_control_data (newConn_state caps_all) [x01] [10; 0; 0; 1] 443 []
           1200 ECT0 (1, None) H1 H2).
Defined.

(** ** Decoding ECN and packet-info records *)

Lemma land3_mod4 (x : Z) : 0 <= x -> Z.land x 3 = x mod 4.
Proof. intros H. change 3 with (Z.ones 2). rewrite Z.land_ones by lia. reflexivity. Qed.

Lemma ParseECN_low_bits (x : Z) :
  exists e, ParseECNHeaderBits (x mod 4) = Ok e /\ e <> ECNUnsupported.
Proof.
  pose proof (Z.mod_pos_bound x 4) as H.
  assert (Hc : x mod 4 = 0 \/ x mod 4 = 1 \/ x mod 4 = 2 \/ x mod 4 = 3) by lia.
  destruct Hc as [E|[E|[E|E]]]; rewrite E; eexists; (split; [reflexivity | discriminate]).
Qed.

Lemma handle_ip_tos (g : globals) (p : receivedPacket) (hdr : Cmsghdr) (body : slice) :
  Level hdr = IPPROTO_IP -> Type_ hdr = IP_TOS -> (0 < s_len body)%nat ->
  handle_ip g p hdr body =
  match ParseECNHeaderBits (bz (s_mem body 0) mod 4) with
  | Ok e => (g, Ok (mkReceivedPacket (remoteAddr p) (data p) (buffer p) e (info p)))
  | Err e => (g, Err e)
  | Panic m => (g, Panic m)
  end.
Proof.
  intros HL HT Hb. unfold handle_ip. rewrite HL, HT, !Z.eqb_refl. cbv beta iota.
  replace (s_len body =? 0)%nat with false by (symmetry; apply Nat.eqb_neq; lia).
  unfold ecnMask. rewrite land3_mod4 by apply bz_range. reflexivity.
Qed.

Lemma handle_ipv6_tclass (g : globals) (p : receivedPacket) (hdr : Cmsghdr) (body : slice) :
  Level hdr = IPPROTO_IPV6 -> Type_ hdr = IPV6_RECVTCLASS -> (0 < s_len body)%nat ->
  handle_ipv6 g p hdr body =
  match ParseECNHeaderBits (bz (s_mem body 0) mod 4) with
  | Ok e => (g, Ok (mkReceivedPacket (remoteAddr p) (data p) (buffer p) e (info p)))
  | Err e => (g, Err e)
  | Panic m => (g, Panic m)
  end.
Proof.
  intros HL HT Hb. unfold handle_ipv6. rewrite HL, HT, !Z.eqb_refl. cbv beta iota.
  replace (s_len body =? 0)%nat with false by (symmetry; apply Nat.eqb_neq; lia).
  unfold ecnMask. rewrite land3_mod4 by apply bz_range. reflexivity.
Qed.

(** An [IP_TOS] or [IPV6_RECVTCLASS] record with a payload sets the
    packet's ECN from the two low bits of the payload's first byte (the DSCP
    bits are ignored); this decoding never fails and never gives
    [ECNUnsupported]; nothing else of the packet changes and parsing goes on
    with the remainder. *)
Theorem parse_chain_ecn_record (g : globals) (p : receivedPacket) (b : slice)
    (hdr : Cmsghdr) (body rem : slice) :
  snd (ParseOneSocketControlMessage b) = Ok (hdr, body, rem) ->
  (Level hdr = IPPROTO_IP /\ Type_ hdr = IP_TOS) \/
  (Level hdr = IPPROTO_IPV6 /\ Type_ hdr = IPV6_RECVTCLASS) ->
  (0 < s_len body)%nat ->
  exists e, ParseECNHeaderBits (bz (s_mem body 0) mod 4) = Ok e /\ e <> ECNUnsupported /\
    parse_chain g p b =
    parse_chain g (mkReceivedPacket (remoteAddr p) (data p) (buffer p) e (info p)) rem.
Proof.
  intros EP HT Hb. rewrite (parse_chain_step _ _ _ _ _ _ EP).
  destruct (ParseECN_low_bits (bz (s_mem body 0))) as [e [He Hne]].
  exists e. split; [exact He|]. split; [exact Hne|].
  destruct HT as [[HL HT]|[HL HT]].
  - rewrite handle_ip_tos, He by assumption.
    rewrite handle_ipv6_other; [reflexivity|].
    intros [H _]. rewrite HL in H. discriminate.
  - rewrite handle_ip_other by (intros [H _]; rewrite HL in H; discriminate).
    rewrite handle_ipv6_tclass, He by assumption. reflexivity.
Qed.

(** A chain holding one [IP_TOS] record with ToS byte [0xb9] (DSCP 46, ECN
    bits 01). *)
Definition tos_b9 : list byte :=
  [x10; x00; x00; x00; x00; x00; x00; x00; x03; x00; x00; x00; xb9; x00; x00; x00].

Lemma parse_chain_ecn_record_witness :
  exists hdr body rem,
    (snd (ParseOneSocketControlMessage (slice_of tos_b9 (fun _ => x00))) = Ok (hdr, body, rem) /\
     ((Level hdr = IPPROTO_IP /\ Type_ hdr = IP_TOS) \/
      (Level hdr = IPPROTO_IPV6 /\ Type_ hdr = IPV6_RECVTCLASS)) /\
     (0 < s_len body)%nat) /\
    exists e, ParseECNHeaderBits (bz (s_mem body 0) mod 4) = Ok e /\ e <> ECNUnsupported /\
      parse_chain globals0 receivedPacket_zero (slice_of tos_b9 (fun _ => x00)) =
      parse_chain globals0
        (mkReceivedPacket (remoteAddr receivedPacket_zero) (data receivedPacket_zero)
           (buffer receivedPacket_zero) e (info receivedPacket_zero)) rem.
Proof.
  do 3 eexists.
  match goal with |- (?A /\ _) /\ _ => assert (H1 : A) by reflexivity end.
  assert (H2 : (Level (mkCmsghdr 16 0 3) = IPPROTO_IP /\ Type_ (mkCmsghdr 16 0 3) = IP_TOS) \/
               (Level (mkCmsghdr 16 0 3) = IPPROTO_IPV6 /\
                Type_ (mkCmsghdr 16 0 3) = IPV6_RECVTCLASS)) by (left; split; reflexivity).
  assert (H3 : (0 < s_len (mkSlice (fun k => s_mem (slice_of tos_b9 (fun _ => x00)) (12 + k)) 4))%nat)
    by (cbn; lia).
  split; [split; [exact H1 | split; [exact H2 | exact H3]]|].
  exact (parse_chain_ecn_record globals0 receivedPacket_zero _ _ _ _ H1 H2 H3).
Defined.

(** An [IP_TOS] or [IPV6_RECVTCLASS] record without payload ([Len = 12])
    makes the parse of the chain, and so [ReadPacket], panic: [body[0]] is
    read with [len(body) = 0]. *)
Theorem parse_chain_empty_ecn_record_panics (g : globals) (p : receivedPacket) (b : slice)
    (hdr : Cmsghdr) (body rem : slice) :
  snd (ParseOneSocketControlMessage b) = Ok (hdr, body, rem) ->
  (Level hdr = IPPROTO_IP /\ Type_ hdr = IP_TOS) \/
  (Level hdr = IPPROTO_IPV6 /\ Type_ hdr = IPV6_RECVTCLASS) ->
  s_len body = 0%nat ->
  snd (parse_chain g p b) = Panic "index out of range [0] with length 0".
Proof.
  intros EP HT Hb. rewrite (parse_chain_step _ _ _ _ _ _ EP).
  destruct HT as [[HL HT]|[HL HT]].
  - unfold handle_ip. rewrite HL, HT, !Z.eqb_refl, Hb. reflexivity.
  - rewrite handle_ip_other by (intros [H _]; rewrite HL in H; discriminate).
    unfold handle_ipv6. rewrite HL, HT, !Z.eqb_refl, Hb. reflexivity.
Qed.

Definition tos_empty : list byte :=
  [x0c; x00; x00; x00; x00; x00; x00; x00; x03; x00; x00; x00].

Lemma parse_chain_empty_ecn_record_panics_witness :
  exists hdr body rem,
    (snd (ParseOneSocketControlMessage (slice_of tos_empty (fun _ => x00))) = Ok (hdr, body, rem) /\
     ((Level hdr = IPPROTO_IP /\ Type_ hdr = IP_TOS) \/
      (Level hdr = IPPROTO_IPV6 /\ Type_ hdr = IPV6_RECVTCLASS)) /\
     s_len body = 0%nat) /\
    snd (parse_chain globals0 receivedPacket_zero (slice_of tos_empty (fun _ => x00)))
      = Panic "index out of range [0] with length 0".
Proof.
  do 3 eexists.
  match goal with |- (?A /\ _) /\ _ => assert (H1 : A) by reflexivity end.
  assert (H2 : (Level (mkCmsghdr 12 0 3) = IPPROTO_IP /\ Type_ (mkCmsghdr 12 0 3) = IP_TOS) \/
               (Level (mkCmsghdr 12 0 3) = IPPROTO_IPV6 /\
                Type_ (mkCmsghdr 12 0 3) = IPV6_RECVTCLASS)) by (left; split; reflexivity).
  assert (H3 : s_len (mkSlice (fun k => s_mem (slice_of tos_empty (fun _ => x00)) (12 + k)) 0)
               = 0%nat) by reflexivity.
  split; [split; [exact H1 | split; [exact H2 | exact H3]]|].
  exact (parse_chain_empty_ecn_record_panics globals0 receivedPacket_zero _ _ _ _ H1 H2 H3).
Defined.

(** The control data [WritePacket] sends (with [packetInfo.OOB()] as
    [packetInfoOOB], as on Windows) read back by [ReadPacket]'s parser: with
    GSO and ECN enabled, an ECN-marked packet to a UDP address, with or
    without a segment size, carries control data from which the parser
    recovers exactly that ECN mark, skipping the segment-size record and
    leaving the rest of the packet unchanged. *)
Theorem WritePacket_ecn_read_back (c : oobConn) (b : list byte) (ip : list Z) (port : Z)
    (i : packetInfo) (gsoSize : Z) (ecn : ECN) (reply : Z * option error)
    (g : globals) (p : receivedPacket) (beyond : nat -> byte) :
  GSO (capabilities c) = true -> ECN_ (capabilities c) = true -> ecn <> ECNUnsupported ->
  exists oob,
    fst (WritePacket c b (UDPAddr ip port) (packetInfo_OOB i) gsoSize ecn reply)
      = [WriteMsgUDP b oob (UDPAddr ip port)] /\
    parse_chain g p (slice_of oob beyond) =
      (g, Ok (mkReceivedPacket (remoteAddr p) (data p) (buffer p) ecn (info p))).
Proof.
  intros HG HE Hne.
  destruct (WritePacket_udp_sent c b ip port (packetInfo_OOB i) gsoSize ecn reply
              (fun _ => HG) (fun _ => HE)) as [r [EW [_ Er]]].
  specialize (Er Hne). rewrite EW. eexists. split; [reflexivity|].
  unfold packetInfo_OOB. rewrite app_nil_l.
  destruct (0 <? gsoSize); [rewrite appendUDPSegmentSizeMsg_nil|];
    destruct (To4_ok ip); destruct ecn; try congruence;
    vm_compute in Er; injection Er as <-; reflexivity.
Qed.

Lemma WritePacket_ecn_read_back_witness :
  (GSO (capabilities (newConn_state caps_all)) = true /\
   ECN_ (capabilities (newConn_state caps_all)) = true /\ ECNCE <> ECNUnsupported) /\
  exists oob,
    fst (WritePacket (newConn_state caps_all) [x01] (UDPAddr IPv6unspecified 443)
           (packetInfo_OOB (mkPacketInfo AddrZero 0)) 1200 ECNCE (1, None))
      = [WriteMsgUDP [x01] oob (UDPAddr IPv6unspecified 443)] /\
    parse_chain globals0 receivedPacket_zero (slice_of oob (fun _ => x00)) =
      (globals0, Ok (mkReceivedPacket (remoteAddr receivedPacket_zero) (data receivedPacket_zero)
                       (buffer receivedPacket_zero) ECNCE (info receivedPacket_zero))).
Proof.
  assert (H1 : GSO (capabilities (newConn_state caps_all)) = true) by reflexivity.
  assert (H2 : ECN_ (capabilities (newConn_state caps_all)) = true) by reflexivity.
  assert (H3 : ECNCE <> ECNUnsupported) by discriminate.
  split; [split; [exact H1 | split; [exact H2 | exact H3]]|].
  exact (WritePacket_ecn_read_back (newConn_state caps_all) [x01] IPv6unspecified 443
           (mkPacketInfo AddrZero 0) 1200 ECNCE (1, None) globals0 receivedPacket_zero
           (fun _ => x00) H1 H2 H3).
Defined.

(** An [IPV6_PKTINFO] record with the 20-byte [in6_pktinfo] payload sets
    the packet's info to the address of payload bytes 0-15 (unmapped: an
    IPv4-mapped address becomes a 4-byte one) and the interface index of
    bytes 16-19, little-endian; the diagnostic state and the rest of the
    packet are unchanged and parsing goes on with the remainder. *)
Theorem parse_chain_pktinfo6 (g : globals) (p : receivedPacket) (b : slice)
    (hdr : Cmsghdr) (body rem : slice) :
  snd (ParseOneSocketControlMessage b) = Ok (hdr, body, rem) ->
  Level hdr = IPPROTO_IPV6 -> Type_ hdr = IPV6_PKTINFO -> s_len body = 20%nat ->
  parse_chain g p b =
  parse_chain g (mkReceivedPacket (remoteAddr p) (data p) (buffer p) (ecn p)
                   (mkPacketInfo (AddrFrom16_Unmap (slice_bytes body 0 16))
                                 (snd (load_u32 body 16)))) rem.
Proof.
  intros EP HL HT Hb. rewrite (parse_chain_step _ _ _ _ _ _ EP).
  rewrite handle_ip_other by (intros [H _]; rewrite HL in H; discriminate).
  unfold handle_ipv6. rewrite HL, HT, Hb, !Z.eqb_refl. reflexivity.
Qed.

(** A chain holding one [IPV6_PKTINFO] record: [::ffff:192.0.2.7], interface
    index 9. *)
Definition pktinfo6_mapped : list byte :=
  [x20; x00; x00; x00; x29; x00; x00; x00; x13; x00; x00; x00;
   x00; x00; x00; x00; x00; x00; x00; x00; x00; x00; xff; xff; xc0; x00; x02; x07;
   x09; x00; x00; x00].

Lemma parse_chain_pktinfo6_witness :
  exists hdr body rem,
    (snd (ParseOneSocketControlMessage (slice_of pktinfo6_mapped (fun _ => x00)))
       = Ok (hdr, body, rem) /\
     Level hdr = IPPROTO_IPV6 /\ Type_ hdr = IPV6_PKTINFO /\ s_len body = 20%nat) /\
    parse_chain globals0 receivedPacket_zero (slice_of pktinfo6_mapped (fun _ => x00)) =
    parse_chain globals0
      (mkReceivedPacket NilAddr (None, 0%nat) None ECNUnsupported
         (mkPacketInfo (AddrFrom16_Unmap (slice_bytes body 0 16)) (snd (load_u32 body 16)))) rem /\
    AddrFrom16_Unmap (slice_bytes body 0 16) = Addr4 [192; 0; 2; 7] /\
    snd (load_u32 body 16) = 9.
Proof.
  do 3 eexists.
  match goal with |- (?A /\ _) /\ _ => assert (H1 : A) by reflexivity end.
  assert (H2 : Level (mkCmsghdr 32 41 19) = IPPROTO_IPV6) by reflexivity.
  assert (H3 : Type_ (mkCmsghdr 32 41 19) = IPV6_PKTINFO) by reflexivity.
  assert (H4 : s_len (mkSlice (fun k => s_mem (slice_of pktinfo6_mapped (fun _ => x00)) (12 + k)) 20)
               = 20%nat) by reflexivity.
  split; [split; [exact H1 | split; [exact H2 | split; [exact H3 | exact H4]]]|].
  split; [exact (parse_chain_pktinfo6 globals0 receivedPacket_zero _ _ _ _ H1 H2 H3 H4)|].
  split; reflexivity.
Defined.

(** ** Delivering a received datagram *)

Lemma next_slot_mlen (c : oobConn) (g : globals) (rb : batch_reply) :
  conn_inv c -> mlen c = batchSize ->
  match next_slot c g rb with
  | SlotPanic _ => True
  | SlotEmpty c' _ _ => mlen c' = batchSize
  | SlotOk c' _ _ _ _ => mlen c' = batchSize
  end.
Proof.
  intros (Hb & Hf & Hr & Hm) Hml. unfold next_slot.
  destruct (mlen c =? readPos c)%nat eqn:E.
  - destruct (negb (batchSize <=? length (backing c))%nat); [exact I|].
    destruct (refill _ _ _ g) as [[c2 g2]|e|m] eqn:ER; try exact I.
    destruct (refill_shape _ _ _ _ _ _ ER) as (H1 & H2 & H3 & H4 & H5). simpl in *.
    destruct ((rb_n rb =? 0)%nat || _); [simpl; exact H3|].
    destruct (negb (rb_n rb <=? length (kernel_fill (backing c2) (rb_fill rb)))%nat) eqn:En;
      [exact I|].
    simpl. rewrite kernel_fill_length in En.
    apply negb_false_iff, Nat.leb_le in En.
    destruct (negb (0 <? rb_n rb)%nat) eqn:E0; [exact I|].
    apply negb_false_iff, Nat.ltb_lt in E0.
    simpl. rewrite H1, Hb in En. unfold batchSize in *. lia.
  - destruct (negb (readPos c <? mlen c)%nat); [exact I|].
    destruct (negb (readPos c <? batchSize)%nat); [exact I|]. exact Hml.
Qed.

Lemma reachable_mlen (c : oobConn) : reachable c -> mlen c = batchSize.
Proof.
  induction 1 as [caps|c g rb c' g' iss p e Hr IH E]; [reflexivity|].
  pose proof (next_slot_mlen c g rb (reachable_inv c Hr) IH) as HN.
  unfold ReadPacket in E.
  destruct (next_slot c g rb) as [m|c1 g1 err|c1 g1 i msg buf]; try discriminate.
  - injection E as <- _ _ _ _. exact HN.
  - destruct (parse_slot g1 msg buf) as [g2 [p2|e2|m2]]; try discriminate;
      injection E as <- _ _ _ _; exact HN.
Qed.

(** On every connection reachable from [newConn] whose batch is used up,
    when [ReadBatch] reports one message received without error, [ReadPacket]
    returns that datagram: its source address, its length [N] in a freshly
    taken pool buffer (the next one the pool hands out), and whatever its
    control data parses to; the batch is used up again afterwards. *)
Theorem ReadPacket_delivers_datagram (c : oobConn) (g : globals) (d : delivery)
    (ds : list delivery) :
  reachable c -> readPos c = mlen c ->
  (d_NN d <= oobBufferSize)%nat -> (d_N d <= MaxPacketBufferSize)%nat ->
  exists c',
    readPos c' = mlen c' /\
    ReadPacket c g (mkReply 1 None (d :: ds)) =
    match parse_chain (snd (getPacketBuffer g))
            (mkReceivedPacket (d_Addr d) (Some (nextBuf g), d_N d) (Some (nextBuf g))
               ECNUnsupported (mkPacketInfo AddrZero 0))
            (mkSlice (d_OOB d) (d_NN d)) with
    | (g', Ok p) => RDone c' g' true p None
    | (g', Err e) => RDone c' g' true receivedPacket_zero (Some e)
    | (_, Panic m) => RPanic m
    end.
Proof.
  intros Hr Hp HNN HN.
  pose proof (reachable_inv c Hr) as (Hb & Hf & _ & _).
  pose proof (reachable_mlen c Hr) as Hm.
  destruct c as [bk ml rp bf cp]; cbn [backing buffers mlen readPos] in *.
  subst rp ml. unfold batchSize in *.
  destruct bk as [|m0 [|? ?]]; try discriminate.
  destruct bf as [|b0 [|? ?]]; try discriminate.
  set (bid := nextBuf g).
  set (msg := mkMessage (Some bid) (d_OOB d) (d_N d) (d_NN d) (d_Addr d)).
  set (c' := mkConn [msg] 1 1 [Some bid] cp).
  assert (HS : next_slot (mkConn [m0] 1 1 [b0] cp) g (mkReply 1 None (d :: ds)) =
               SlotOk c' (snd (getPacketBuffer g)) true msg (Some bid)) by reflexivity.
  assert (HP : parse_slot (snd (getPacketBuffer g)) msg (Some bid) =
               parse_chain (snd (getPacketBuffer g))
                 (mkReceivedPacket (d_Addr d) (Some bid, d_N d) (Some bid) ECNUnsupported
                    (mkPacketInfo AddrZero 0)) (mkSlice (d_OOB d) (d_NN d))).
  { unfold parse_slot, msg. cbn [NN N Buffers0 OOB Addr].
    replace (negb (d_NN d <=? oobBufferSize)%nat) with false
      by (symmetry; apply negb_false_iff, Nat.leb_le; exact HNN).
    replace (negb (d_N d <=? MaxPacketBufferSize)%nat) with false
      by (symmetry; apply negb_false_iff, Nat.leb_le; exact HN).
    reflexivity. }
  exists c'. split; [reflexivity|].
  unfold ReadPacket. rewrite HS, HP. reflexivity.
Qed.

(** A 1200-byte datagram delivered with the [IP_TOS] record [tos_b9] as
    its control data. *)
Definition tos_delivery : delivery :=
  mkDelivery (UDPAddr [192; 0; 2; 1] 4433) 1200 (mem_of tos_b9) 16.

Lemma ReadPacket_delivers_datagram_witness :
  (reachable (newConn_state caps_all) /\
   readPos (newConn_state caps_all) = mlen (newConn_state caps_all) /\
   (d_NN tos_delivery <= oobBufferSize)%nat /\ (d_N tos_delivery <= MaxPacketBufferSize)%nat) /\
  exists c',
    readPos c' = mlen c' /\
    ReadPacket (newConn_state caps_all) globals0 (mkReply 1 None [tos_delivery]) =
    match parse_chain (snd (getPacketBuffer globals0))
            (mkReceivedPacket (d_Addr tos_delivery) (Some (nextBuf globals0), d_N tos_delivery)
               (Some (nextBuf globals0)) ECNUnsupported (mkPacketInfo AddrZero 0))
            (mkSlice (d_OOB tos_delivery) (d_NN tos_delivery)) with
    | (g', Ok p) => RDone c' g' true p None
    | (g', Err e) => RDone c' g' true receivedPacket_zero (Some e)
    | (_, Panic m) => RPanic m
    end.
Proof.
  assert (H1 : reachable (newConn_state caps_all)) by apply r_new.
  assert (H2 : readPos (newConn_state caps_all) = mlen (newConn_state caps_all)) by reflexivity.
  assert (H3 : (d_NN tos_delivery <= oobBufferSize)%nat) by (apply Nat.leb_le; reflexivity).
  assert (H4 : (d_N tos_delivery <= MaxPacketBufferSize)%nat) by (apply Nat.leb_le; reflexivity).
  split; [split; [exact H1 | split; [exact H2 | split; [exact H3 | exact H4]]]|].
  exact (ReadPacket_delivers_datagram (newConn_state caps_all) globals0 tos_delivery [] H1 H2 H3 H4).
Defined.

(** ** The GSO probe *)

Lemma getMaxGSOSegments_eq (s : os) :
  getMaxGSOSegments s =
  match os_socket s AF_INET6 with
  | Some h =>
      let s1 := emit (EvSocket AF_INET6) s in
      let '(err, s2) := SetsockoptInt h IPPROTO_UDP UDP_SEND_MSG_SIZE GSO_SIZE s1 in
      (match err with Some _ => 1 | None => 512 end, emit (EvClose h) s2)
  | None =>
      let s1 := emit (EvSocket AF_INET) (emit (EvSocket AF_INET6) s) in
      match os_socket s AF_INET with
      | Some h =>
          let '(err, s2) := SetsockoptInt h IPPROTO_UDP UDP_SEND_MSG_SIZE GSO_SIZE s1 in
          (match err with Some _ => 1 | None => 512 end, emit (EvClose h) s2)
      | None => (1, s1)
      end
  end.
Proof.
  unfold getMaxGSOSegments, mbind, mret, Socket, CloseHandle.
  destruct (os_socket s AF_INET6) as [h|]; cbn [os_socket emit].
  - destruct (SetsockoptInt h IPPROTO_UDP UDP_SEND_MSG_SIZE GSO_SIZE _). reflexivity.
  - destruct (os_socket s AF_INET) as [h|]; [|reflexivity].
    destruct (SetsockoptInt h IPPROTO_UDP UDP_SEND_MSG_SIZE GSO_SIZE _). reflexivity.
Qed.
Ltac os_simpl := cbn [os_setfail os_socket os_getfail os_opt os_trace emit fst snd] in *.

(** [getMaxGSOSegments] returns 512 exactly when a dummy UDP socket could
    be created (IPv6 first; IPv4 is tried only when IPv6 fails) and setting
    [UDP_SEND_MSG_SIZE] to 1500 on it succeeded, and 1 otherwise. A dummy
    socket it creates is closed exactly once, by its last call; when none is
    created nothing is closed. No option of any other socket changes. *)
Theorem getMaxGSOSegments_probe (s : os) :
  let dummy := match os_socket s AF_INET6 with Some h => Some h | None => os_socket s AF_INET end in
  (fst (getMaxGSOSegments s) = 512 <->
   exists h, dummy = Some h /\ os_setfail s h IPPROTO_UDP UDP_SEND_MSG_SIZE GSO_SIZE = None) /\
  (fst (getMaxGSOSegments s) = 1 \/ fst (getMaxGSOSegments s) = 512) /\
  exists t, os_trace (snd (getMaxGSOSegments s)) = os_trace s ++ t /\
    (In (EvSocket AF_INET) t <-> os_socket s AF_INET6 = None) /\
    match dummy with
    | Some h => exists t0, t = t0 ++ [EvClose h] /\ forall h', ~ In (EvClose h') t0
    | None => forall h', ~ In (EvClose h') t
    end /\
    (forall h l o, dummy <> Some h -> os_opt (snd (getMaxGSOSegments s)) h l o = os_opt s h l o).
Proof.
  intros dummy. rewrite getMaxGSOSegments_eq. unfold dummy; clear dummy.
  assert (Hv : s32 (GSO_SIZE mod 2 ^ 32) = GSO_SIZE) by reflexivity.
  destruct (os_socket s AF_INET6) as [h|] eqn:E6;
    [|destruct (os_socket s AF_INET) as [h|] eqn:E4];
    unfold SetsockoptInt; rewrite ?Hv; os_simpl.
  - destruct (os_setfail s h IPPROTO_UDP UDP_SEND_MSG_SIZE GSO_SIZE) eqn:EF; os_simpl.
    + split; [split; [discriminate | intros [h' [Eh Ef]]; injection Eh as <-; congruence]|].
      split; [left; reflexivity|].
      eexists. split; [rewrite <- !app_assoc; reflexivity|].
      split; [split; [intros [H|[H|[H|[]]]]; discriminate | discriminate]|].
      split; [exists [EvSocket AF_INET6; EvSetsockopt h IPPROTO_UDP UDP_SEND_MSG_SIZE GSO_SIZE];
              split; [reflexivity | intros h' [H|[H|[]]]; discriminate]|].
      intros; reflexivity.
    + split; [split; [intros _; exists h; split; [reflexivity | exact EF] | reflexivity]|].
      split; [right; reflexivity|].
      eexists. split; [rewrite <- !app_assoc; reflexivity|].
      split; [split; [intros [H|[H|[H|[]]]]; discriminate | discriminate]|].
      split; [exists [EvSocket AF_INET6; EvSetsockopt h IPPROTO_UDP UDP_SEND_MSG_SIZE GSO_SIZE];
              split; [reflexivity | intros h' [H|[H|[]]]; discriminate]|].
      intros h' l o Hne.
      replace (h' =? h) with false by (symmetry; apply Z.eqb_neq; congruence). reflexivity.
  - destruct (os_setfail s h IPPROTO_UDP UDP_SEND_MSG_SIZE GSO_SIZE) eqn:EF; os_simpl.
    + split; [split; [discriminate | intros [h' [Eh Ef]]; injection Eh as <-; congruence]|].
      split; [left; reflexivity|].
      eexists. split; [rewrite <- !app_assoc; reflexivity|].
      split; [split; [intros _; reflexivity | intros _; right; left; reflexivity]|].
      split; [exists [EvSocket AF_INET6; EvSocket AF_INET;
                      EvSetsockopt h IPPROTO_UDP UDP_SEND_MSG_SIZE GSO_SIZE];
              split; [reflexivity | intros h' [H|[H|[H|[]]]]; discriminate]|].
      intros; reflexivity.
    + split; [split; [intros _; exists h; split; [reflexivity | exact EF] | reflexivity]|].
      split; [right; reflexivity|].
      eexists. split; [rewrite <- !app_assoc; reflexivity|].
      split; [split; [intros _; reflexivity | intros _; right; left; reflexivity]|].
      split; [exists [EvSocket AF_INET6; EvSocket AF_INET;
                      EvSetsockopt h IPPROTO_UDP UDP_SEND_MSG_SIZE GSO_SIZE];
              split; [reflexivity | intros h' [H|[H|[H|[]]]]; discriminate]|].
      intros h' l o Hne.
      replace (h' =? h) with false by (symmetry; apply Z.eqb_neq; congruence). reflexivity.
  - split; [split; [discriminate | intros [h' [Eh _]]; discriminate]|].
    split; [left; reflexivity|].
    eexists. split; [rewrite <- !app_assoc; reflexivity|].
    split; [split; [intros _; reflexivity | intros _; right; left; reflexivity]|].
    split; [intros h' [H|[H|[]]]; discriminate|].
    intros; reflexivity.
Qed.

(** ** Socket buffers *)

Lemma s32_int32 (n : Z) : - 2 ^ 31 <= n < 2 ^ 31 -> s32 (n mod 2 ^ 32) = n.
Proof.
  intros Hn. unfold s32.
  change (2 ^ 31) with 2147483648 in *. change (2 ^ 32) with 4294967296.
  destruct (Z.neg_nonneg_cases n) as [Hneg|Hpos].
  - replace (n mod 4294967296) with (n + 4294967296)
      by (symmetry; rewrite <- (Z.mod_small (n + 4294967296) 4294967296) by lia;
          rewrite Z.add_mod, Z.mod_same, Z.add_0_r, Z.mod_mod by lia; reflexivity).
    destruct (n + 4294967296 <? 2147483648) eqn:E; [apply Z.ltb_lt in E; lia | lia].
  - rewrite Z.mod_small by lia.
    destruct (n <? 2147483648) eqn:E; [reflexivity | apply Z.ltb_ge in E; lia].
Qed.

Ltac buf_unfold :=
  unfold forceSetReceiveBuffer, forceSetSendBuffer, inspectReadBuffer, inspectWriteBuffer,
    Control, GetsockoptInt, SetsockoptInt, mbind, mret.

(** Setting the receive buffer through a working connection whose
    [getsockopt] succeeds returns the [setsockopt] answer for [int32(bytes)];
    when that succeeds, [inspectReadBuffer] then reads back [int32(bytes)],
    which is [bytes] itself for any value in the int32 range, and otherwise it
    reads what it read before. [inspectWriteBuffer] reads what it read
    before either way. *)
Theorem forceSetReceiveBuffer_inspect (rc : rawConn) (n : Z) (s : os)
  (Hc : controlErr rc = None)
  (Hg : os_getfail s (fd rc) SOL_SOCKET SO_RCVBUF = None) :
  let '(err, s1) := forceSetReceiveBuffer rc n s in
  err = os_setfail s (fd rc) SOL_SOCKET SO_RCVBUF (s32 (n mod 2 ^ 32)) /\
  fst (inspectReadBuffer rc s1) =
    (if err then fst (fst (inspectReadBuffer rc s)) else s32 (n mod 2 ^ 32), None) /\
  fst (inspectWriteBuffer rc s1) = fst (inspectWriteBuffer rc s) /\
  (- 2 ^ 31 <= n < 2 ^ 31 -> s32 (n mod 2 ^ 32) = n).
Proof.
  buf_unfold. rewrite Hc. cbn zeta. os_simpl.
  destruct (os_setfail s (fd rc) SOL_SOCKET SO_RCVBUF (s32 (n mod 2 ^ 32))) eqn:EF;
    os_simpl; rewrite Hg;
    (split; [reflexivity|]);
    (split; [|split; [|apply s32_int32]]);
    destruct (os_getfail s (fd rc) SOL_SOCKET SO_SNDBUF); cbn; rewrite ?Z.eqb_refl; reflexivity.
Qed.

(** The same for the send buffer: [inspectWriteBuffer] reads back
    [int32(bytes)] after a successful [forceSetSendBuffer], and
    [inspectReadBuffer] is not affected. *)
Theorem forceSetSendBuffer_inspect (rc : rawConn) (n : Z) (s : os)
  (Hc : controlErr rc = None)
  (Hg : os_getfail s (fd rc) SOL_SOCKET SO_SNDBUF = None) :
  let '(err, s1) := forceSetSendBuffer rc n s in
  err = os_setfail s (fd rc) SOL_SOCKET SO_SNDBUF (s32 (n mod 2 ^ 32)) /\
  fst (inspectWriteBuffer rc s1) =
    (if err then fst (fst (inspectWriteBuffer rc s)) else s32 (n mod 2 ^ 32), None) /\
  fst (inspectReadBuffer rc s1) = fst (inspectReadBuffer rc s) /\
  (- 2 ^ 31 <= n < 2 ^ 31 -> s32 (n mod 2 ^ 32) = n).
Proof.
  buf_unfold. rewrite Hc. cbn zeta. os_simpl.
  destruct (os_setfail s (fd rc) SOL_SOCKET SO_SNDBUF (s32 (n mod 2 ^ 32))) eqn:EF;
    os_simpl; rewrite Hg;
    (split; [reflexivity|]);
    (split; [|split; [|apply s32_int32]]);
    destruct (os_getfail s (fd rc) SOL_SOCKET SO_RCVBUF); cbn; rewrite ?Z.eqb_refl; reflexivity.
Qed.


(** A system on which every call succeeds: both families give socket 7, and
    every option holds 65536. *)
Definition os_example : os :=
  mkOS (fun _ => Some 7) (fun _ _ _ _ => None) (fun _ _ _ => None) (fun _ _ _ => 65536) [].

Definition rc_open : rawConn := mkRawConn None 7.


Lemma forceSetReceiveBuffer_inspect_witness :
  controlErr rc_open = None /\
  os_getfail os_example (fd rc_open) SOL_SOCKET SO_RCVBUF = None /\
  (let '(err, s1) := forceSetReceiveBuffer rc_open (2 ^ 31) os_example in
   err = os_setfail os_example (fd rc_open) SOL_SOCKET SO_RCVBUF (s32 ((2 ^ 31) mod 2 ^ 32)) /\
   fst (inspectReadBuffer rc_open s1) =
     (if err then fst (fst (inspectReadBuffer rc_open os_example))
      else s32 ((2 ^ 31) mod 2 ^ 32), None) /\
   fst (inspectWriteBuffer rc_open s1) = fst (inspectWriteBuffer rc_open os_example) /\
   (- 2 ^ 31 <= 2 ^ 31 < 2 ^ 31 -> s32 ((2 ^ 31) mod 2 ^ 32) = 2 ^ 31)).
Proof.
  split; [reflexivity|]. split; [reflexivity|].
  apply (forceSetReceiveBuffer_inspect rc_open (2 ^ 31) os_example); reflexivity.
Defined.

Lemma forceSetSendBuffer_inspect_witness :
  controlErr rc_open = None /\
  os_getfail os_example (fd rc_open) SOL_SOCKET SO_SNDBUF = None /\
  (let '(err, s1) := forceSetSendBuffer rc_open 1048576 os_example in
   err = os_setfail os_example (fd rc_open) SOL_SOCKET SO_SNDBUF (s32 (1048576 mod 2 ^ 32)) /\
   fst (inspectWriteBuffer rc_open s1) =
     (if err then fst (fst (inspectWriteBuffer rc_open os_example))
      else s32 (1048576 mod 2 ^ 32), None) /\
   fst (inspectReadBuffer rc_open s1) = fst (inspectReadBuffer rc_open os_example) /\
   (- 2 ^ 31 <= 1048576 < 2 ^ 31 -> s32 (1048576 mod 2 ^ 32) = 1048576)).
Proof.
  split; [reflexivity|]. split; [reflexivity|].
  apply (forceSetSendBuffer_inspect rc_open 1048576 os_example); reflexivity.
Defined.


(** ** [newConn] *)

Lemma getMaxGSOSegments_fst (s s' : os) :
  os_socket s' = os_socket s -> os_setfail s' = os_setfail s ->
  fst (getMaxGSOSegments s') = fst (getMaxGSOSegments s).
Proof.
  intros Hs Hf. rewrite !getMaxGSOSegments_eq. rewrite Hs.
  unfold SetsockoptInt. os_simpl. rewrite Hf.
  destruct (os_socket s AF_INET6); [|destruct (os_socket s AF_INET)]; os_simpl;
    try destruct (os_setfail s _ _ _ _); reflexivity.
Qed.

Ltac gso_fst s :=
  match goal with
  | |- context [getMaxGSOSegments ?st] =>
      pose proof (getMaxGSOSegments_fst s st eq_refl eq_refl) as HG;
      destruct (getMaxGSOSegments st) as [g st']; cbn in HG |- *; rewrite HG
  end.

Lemma newConn_fst (c : packetConn) (supportsDF : bool) (s : os) :
  fst (newConn c supportsDF s) =
  match syscallConn c with
  | inr err => inr (SetupErr err)
  | inl rc =>
      match controlErr rc with
      | Some e => inr (SetupErr e)
      | None =>
          let needsPacketInfo :=
            match localAddr c with UDPAddr ip _ => IsUnspecified ip | _ => false end in
          let refused lvl opt :=
            match os_setfail s (fd rc) lvl opt 1 with Some _ => true | None => false end in
          if refused IPPROTO_IP IP_RECVECN && refused IPPROTO_IPV6 IPV6_RECVECN then
            inr (SetupMsg "activating ECN failed for both IPv4 and IPv6")
          else if needsPacketInfo && refused IPPROTO_IP IP_PKTINFO
                  && refused IPPROTO_IPV6 IPV6_PKTINFO then
            inr (SetupMsg "activating packet info failed for both IPv4 and IPv6")
          else inl (newConn_state (mkCaps supportsDF (fst (getMaxGSOSegments s) =? 512) true))
      end
  end.
Proof.
  unfold newConn, Control, isGSOEnabled, mbind, mret, SetsockoptInt, Debugf.
  destruct (syscallConn c) as [rc|err]; [|reflexivity].
  destruct (controlErr rc) as [e|]; [reflexivity|].
  set (pi := match localAddr c with UDPAddr ip _ => IsUnspecified ip | _ => false end).
  cbn zeta. os_simpl. change (s32 (1 mod 2 ^ 32)) with 1.
  destruct pi.
  - destruct (os_setfail s (fd rc) IPPROTO_IP IP_RECVECN 1); os_simpl;
    destruct (os_setfail s (fd rc) IPPROTO_IPV6 IPV6_RECVECN 1); os_simpl;
    destruct (os_setfail s (fd rc) IPPROTO_IP IP_PKTINFO 1); os_simpl;
    destruct (os_setfail s (fd rc) IPPROTO_IPV6 IPV6_PKTINFO 1); os_simpl;
    cbn -[getMaxGSOSegments]; try reflexivity; gso_fst s; reflexivity.
  - destruct (os_setfail s (fd rc) IPPROTO_IP IP_RECVECN 1); os_simpl;
    destruct (os_setfail s (fd rc) IPPROTO_IPV6 IPV6_RECVECN 1); os_simpl;
    cbn -[getMaxGSOSegments]; try reflexivity; gso_fst s; reflexivity.
Qed.

(** [newConn] fails with the error of [SyscallConn] or of [Control], with
    the ECN message when the system refuses both [IP_RECVECN] and
    [IPV6_RECVECN], and, when the local address needs packet info, with the
    packet-info message when it refuses both [IP_PKTINFO] and
    [IPV6_PKTINFO]; otherwise it returns a fresh connection with the given
    DF flag, ECN enabled, and GSO enabled exactly when the probe on the
    initial system answers 512: the option calls and the debug messages
    before the probe do not change its answer. *)
Theorem newConn_outcome (c : packetConn) (supportsDF : bool) (s : os) :
  fst (newConn c supportsDF s) =
  match syscallConn c with
  | inr err => inr (SetupErr err)
  | inl rc =>
      match controlErr rc with
      | Some e => inr (SetupErr e)
      | None =>
          let needsPacketInfo :=
            match localAddr c with UDPAddr ip _ => IsUnspecified ip | _ => false end in
          let refused lvl opt :=
            match os_setfail s (fd rc) lvl opt 1 with Some _ => true | None => false end in
          if refused IPPROTO_IP IP_RECVECN && refused IPPROTO_IPV6 IPV6_RECVECN then
            inr (SetupMsg "activating ECN failed for both IPv4 and IPv6")
          else if needsPacketInfo && refused IPPROTO_IP IP_PKTINFO
                  && refused IPPROTO_IPV6 IPV6_PKTINFO then
            inr (SetupMsg "activating packet info failed for both IPv4 and IPv6")
          else inl (newConn_state (mkCaps supportsDF (fst (getMaxGSOSegments s) =? 512) true))
      end
  end.
Proof. exact (newConn_fst c supportsDF s). Qed.

Lemma bytes_eqb_true (a b : list Z) : bytes_eqb a b = true <-> a = b.
Proof. unfold bytes_eqb. destruct (list_eq_dec Z.eq_dec a b); split; congruence. Qed.

Lemma IsUnspecified_iff (ip : list Z) :
  IsUnspecified ip = true <-> ip = [0; 0; 0; 0] \/ ip = IPv4zero \/ ip = IPv6unspecified.
Proof.
  split.
  - unfold IsUnspecified, IP_Equal.
    change (length IPv4zero) with 16%nat. change (length IPv6unspecified) with 16%nat.
    destruct (length ip =? 16)%nat eqn:L16.
    + intros H. apply orb_true_iff in H as [H|H]; apply bytes_eqb_true in H; auto.
    + destruct (length ip =? 4)%nat; cbn; [|discriminate].
      intros H. apply orb_true_iff in H as [H|H]; try (apply andb_prop in H as [_ H]);
        try discriminate H; apply bytes_eqb_true in H; auto.
  - intros [ -> | [ -> | -> ] ]; reflexivity.
Qed.

Lemma getMaxGSOSegments_trace (s : os) :
  exists t, os_trace (snd (getMaxGSOSegments s)) = os_trace s ++ t /\
    forall h l o v, In (EvSetsockopt h l o v) t ->
      l = IPPROTO_UDP /\ o = UDP_SEND_MSG_SIZE /\ v = GSO_SIZE.
Proof.
  rewrite getMaxGSOSegments_eq. unfold SetsockoptInt.
  change (s32 (GSO_SIZE mod 2 ^ 32)) with GSO_SIZE.
  destruct (os_socket s AF_INET6) as [h|]; [|destruct (os_socket s AF_INET) as [h|]];
    os_simpl; try destruct (os_setfail s h IPPROTO_UDP UDP_SEND_MSG_SIZE GSO_SIZE);
    os_simpl; (eexists; split; [rewrite <- !app_assoc; reflexivity|]);
    cbn; intros h' l o v H; repeat destruct H as [H|H]; try discriminate;
    try contradiction; injection H as <- <- <- <-; auto.
Qed.

Ltac gso_trace :=
  match goal with
  | |- context [getMaxGSOSegments ?st] =>
      let tp := fresh "tp" in let Htp := fresh "Htp" in let Hin := fresh "Hin" in
      destruct (getMaxGSOSegments_trace st) as [tp [Htp Hin]];
      destruct (getMaxGSOSegments st) as [g st']; cbn in Htp |- *; rewrite Htp
  end.

(** [newConn] asks for packet info exactly when its local address is a UDP
    address whose IP is unspecified ([0.0.0.0], in its 4- or 16-byte form,
    or [::]). On a working connection it first sets [IP_RECVECN] and
    [IPV6_RECVECN] to 1, then [IP_PKTINFO] and [IPV6_PKTINFO] to 1 when it
    asks for packet info and no other option before; every later
    [setsockopt] is the GSO probe's [UDP_SEND_MSG_SIZE] of 1500 at level
    [IPPROTO_UDP]. *)
Theorem newConn_socket_options (c : packetConn) (supportsDF : bool) (s : os) (rc : rawConn)
  (Hrc : syscallConn c = inl rc) (Hc : controlErr rc = None) :
  let needsPacketInfo :=
    match localAddr c with UDPAddr ip _ => IsUnspecified ip | _ => false end in
  (needsPacketInfo = true <->
   exists ip port, localAddr c = UDPAddr ip port /\
     (ip = [0; 0; 0; 0] \/ ip = IPv4zero \/ ip = IPv6unspecified)) /\
  exists t,
    os_trace (snd (newConn c supportsDF s)) =
      os_trace s ++
      [EvSetsockopt (fd rc) IPPROTO_IP IP_RECVECN 1;
       EvSetsockopt (fd rc) IPPROTO_IPV6 IPV6_RECVECN 1] ++
      (if needsPacketInfo then
         [EvSetsockopt (fd rc) IPPROTO_IP IP_PKTINFO 1;
          EvSetsockopt (fd rc) IPPROTO_IPV6 IPV6_PKTINFO 1] else []) ++ t /\
    forall h l o v, In (EvSetsockopt h l o v) t ->
      l = IPPROTO_UDP /\ o = UDP_SEND_MSG_SIZE /\ v = GSO_SIZE.
Proof.
  intros needsPacketInfo. split.
  - unfold needsPacketInfo. destruct (localAddr c) as [|ip port|n].
    + split; [discriminate | intros (ip & port & H & _); discriminate].
    + rewrite IsUnspecified_iff. split.
      * intros H. exists ip, port. auto.
      * intros (ip' & port' & H & Hip). injection H as -> ->. exact Hip.
    + split; [discriminate | intros (ip & port & H & _); discriminate].
  - unfold newConn, Control, isGSOEnabled, mbind, mret, SetsockoptInt, Debugf.
    rewrite Hrc, Hc. fold needsPacketInfo.
    cbn zeta. os_simpl. change (s32 (1 mod 2 ^ 32)) with 1.
    destruct needsPacketInfo.
    + destruct (os_setfail s (fd rc) IPPROTO_IP IP_RECVECN 1); os_simpl;
      destruct (os_setfail s (fd rc) IPPROTO_IPV6 IPV6_RECVECN 1); os_simpl;
      destruct (os_setfail s (fd rc) IPPROTO_IP IP_PKTINFO 1); os_simpl;
      destruct (os_setfail s (fd rc) IPPROTO_IPV6 IPV6_PKTINFO 1); os_simpl;
      cbn -[getMaxGSOSegments]; try gso_trace;
      (eexists; split; [rewrite <- !app_assoc; reflexivity|]);
      intros h l o v H; cbn in H; repeat destruct H as [H|H];
      try discriminate; try contradiction; eauto.
    + destruct (os_setfail s (fd rc) IPPROTO_IP IP_RECVECN 1); os_simpl;
      destruct (os_setfail s (fd rc) IPPROTO_IPV6 IPV6_RECVECN 1); os_simpl;
      cbn -[getMaxGSOSegments]; try gso_trace;
      (eexists; split; [rewrite <- !app_assoc; reflexivity|]);
      intros h l o v H; cbn in H; repeat destruct H as [H|H];
      try discriminate; try contradiction; eauto.
Qed.

(** A wildcard listener on [::]:4433 over a working socket. *)
Definition pc_any : packetConn := mkPacketConn (inl rc_open) (UDPAddr IPv6unspecified 4433).

Lemma newConn_socket_options_witness :
  syscallConn pc_any = inl rc_open /\ controlErr rc_open = None /\
  let needsPacketInfo :=
    match localAddr pc_any with UDPAddr ip _ => IsUnspecified ip | _ => false end in
  (needsPacketInfo = true <->
   exists ip port, localAddr pc_any = UDPAddr ip port /\
     (ip = [0; 0; 0; 0] \/ ip = IPv4zero \/ ip = IPv6unspecified)) /\
  exists t,
    os_trace (snd (newConn pc_any true os_example)) =
      os_trace os_example ++
      [EvSetsockopt (fd rc_open) IPPROTO_IP IP_RECVECN 1;
       EvSetsockopt (fd rc_open) IPPROTO_IPV6 IPV6_RECVECN 1] ++
      (if needsPacketInfo then
         [EvSetsockopt (fd rc_open) IPPROTO_IP IP_PKTINFO 1;
          EvSetsockopt (fd rc_open) IPPROTO_IPV6 IPV6_PKTINFO 1] else []) ++ t /\
    forall h l o v, In (EvSetsockopt h l o v) t ->
      l = IPPROTO_UDP /\ o = UDP_SEND_MSG_SIZE /\ v = GSO_SIZE.
Proof.
  split; [reflexivity|]. split; [reflexivity|].
  exact (newConn_socket_options pc_any true os_example rc_open eq_refl eq_refl).
Defined.

Lemma newConn_ok_state (c : packetConn) (supportsDF : bool) (s : os) (conn : oobConn) :
  fst (newConn c supportsDF s) = inl conn ->
  conn = newConn_state (mkCaps supportsDF (fst (getMaxGSOSegments s) =? 512) true).
Proof.
  rewrite newConn_fst.
  destruct (syscallConn c) as [rc|err]; [|discriminate].
  destruct (controlErr rc); [discriminate|]. cbv zeta.
  destruct (_ && _); [discriminate|].
  destruct (_ && _ && _); [discriminate|].
  intros H; injection H as <-; reflexivity.
Qed.

(** A connection returned by [newConn] keeps the caller's DF flag and never
    panics on an ECN mark when it sends to a UDP address: it panics with
    "GSO disabled" exactly for a positive GSO size when the probe on the
    system [newConn] ran on did not answer 512, and otherwise sends the
    datagram with one [WriteMsgUDP] call and returns its answer. *)
Theorem newConn_WritePacket (c : packetConn) (supportsDF : bool) (s : os) (conn : oobConn)
    (b : list byte) (ip : list Z) (port : Z) (packetInfoOOB : list byte) (gsoSize : Z)
    (ecn : ECN) (reply : Z * option error)
    (H : fst (newConn c supportsDF s) = inl conn) :
  DF (cap conn) = supportsDF /\
  (0 < gsoSize -> fst (getMaxGSOSegments s) <> 512 ->
   WritePacket conn b (UDPAddr ip port) packetInfoOOB gsoSize ecn reply = ([], WPanic "GSO disabled")) /\
  ((0 < gsoSize -> fst (getMaxGSOSegments s) = 512) ->
   exists oob,
     WritePacket conn b (UDPAddr ip port) packetInfoOOB gsoSize ecn reply =
       ([WriteMsgUDP b oob (UDPAddr ip port)], WReturned (fst reply) (snd reply))).
Proof.
  apply newConn_ok_state in H. subst conn. split; [reflexivity|]. split.
  - intros Hpos Hprobe. unfold WritePacket, capabilities. cbn [cap GSO].
    apply Z.ltb_lt in Hpos. apply Z.eqb_neq in Hprobe. rewrite Hpos, Hprobe. reflexivity.
  - intros Hg.
    destruct (WritePacket_udp_sent
                (newConn_state (mkCaps supportsDF (fst (getMaxGSOSegments s) =? 512) true))
                b ip port packetInfoOOB gsoSize ecn reply) as [ecnrec [E _]].
    + intros Hpos. cbn. apply Z.eqb_eq. auto.
    + intros _. reflexivity.
    + eexists. exact E.
Qed.

Lemma newConn_WritePacket_witness :
  fst (newConn pc_any true os_example) = inl (newConn_state caps_all) /\
  DF (cap (newConn_state caps_all)) = true /\
  (0 < 1200 -> fst (getMaxGSOSegments os_example) <> 512 ->
   WritePacket (newConn_state caps_all) [x01] (UDPAddr [192; 0; 2; 1] 4433) [] 1200 ECT0 (1, None)
     = ([], WPanic "GSO disabled")) /\
  ((0 < 1200 -> fst (getMaxGSOSegments os_example) = 512) ->
   exists oob,
     WritePacket (newConn_state caps_all) [x01] (UDPAddr [192; 0; 2; 1] 4433) [] 1200 ECT0 (1, None) =
       ([WriteMsgUDP [x01] oob (UDPAddr [192; 0; 2; 1] 4433)], WReturned (fst (1, @None error)) (snd (1, @None error)))).
Proof.
  assert (H : fst (newConn pc_any true os_example) = inl (newConn_state caps_all))
    by (vm_compute; reflexivity).
  split; [exact H|].
  exact (newConn_WritePacket pc_any true os_example (newConn_state caps_all)
           [x01] [192; 0; 2; 1] 4433 [] 1200 ECT0 (1, None) H).
Defined.
